(** * Task prioritisation and claiming engine (src/main.py, src/schemas.py)

    A shallow embedding of the request handlers of [main.py] that rank,
    select, claim and report tasks, together with the part of the document
    store they talk to, followed by the properties of the specification
    that concern them.

    Documents are Python dicts with string keys: [gmap string value].
    Handlers that touch the store are functions from a [world] to an
    outcome and a new [world]; a raised exception keeps the writes made
    before it, as in Python. *)

From Stdlib Require Import ZArith String Ascii List Sorted Lia.
From stdpp Require Import gmap strings list fin_maps pretty.

Local Open Scope Z_scope.
Local Open Scope string_scope.

(** ** Values stored in documents *)

(** [bson.ObjectId]: its bytes, twelve for every identity the store
    generates, kept here as the lower-case hexadecimal digits that
    [str(oid)] prints. *)
Inductive ObjectId : Type :=
| Oid (hex : string).

(** The values the handlers meet in a document.  Floats, nested documents
    and arrays never occur in what [Task] and [MessageCreate] dump and are
    left out. *)
Inductive value : Type :=
| VNone
| VBool (b : bool)
| VInt (z : Z)
| VStr (s : string)
| VOid (o : ObjectId).

#[global] Instance ObjectId_eq_dec : EqDecision ObjectId.
Proof. solve_decision. Defined.

#[global] Instance value_eq_dec : EqDecision value.
Proof. solve_decision. Defined.

(** A document: a dict from field names to values. *)
Abbreviation doc := (gmap string value).

(** ** Exceptions and fallible results *)

Inductive exn : Type :=
| TypeError
| ValueError
| KeyError (key : string)
| IndexError
| HTTPException (status_code : Z) (detail : string).

Inductive res (A : Type) : Type :=
| Ok (a : A)
| Raise (e : exn).

Arguments Ok {A} a.
Arguments Raise {A} e.

#[global] Instance exn_eq_dec : EqDecision exn.
Proof. solve_decision. Defined.

#[global] Instance res_eq_dec {A : Type} `{EqDecision A} : EqDecision (res A).
Proof. solve_decision. Defined.

Definition res_bind {A B : Type} (r : res A) (k : A -> res B) : res B :=
  match r with
  | Ok a => k a
  | Raise e => Raise e
  end.

Notation "'let?' x ':=' r 'in' k" := (res_bind r (fun x => k))
  (at level 10, x name, r at level 100, k at level 200).

(** ** Python built-ins on values *)

Definition nl : string := String "010"%char EmptyString.

(** [d.get(k)]: the value under [k], [None] when the key is absent. *)
Definition get (d : doc) (k : string) : value := default VNone (d !! k).

(** [d.get(k, dflt)]: the default only replaces an absent key. *)
Definition get_or (d : doc) (k : string) (dflt : value) : value :=
  default dflt (d !! k).

(** Truth value of an object, as [if x] and [not x] test it. *)
Definition truthy (v : value) : bool :=
  match v with
  | VNone => false
  | VBool b => b
  | VInt z => negb (Z.eqb z 0)
  | VStr s => negb (bool_decide (s = ""))
  | VOid _ => true
  end.

(** Truth value of an [Optional[str]] argument. *)
Definition truthy_str (o : option string) : bool :=
  match o with
  | None => false
  | Some s => negb (bool_decide (s = ""))
  end.

(** [v == s] for a [str] [s]. *)
Definition eq_str (v : value) (s : string) : bool := bool_decide (v = VStr s).

(** [str(v)], which is also what an f-string field prints. *)
Definition py_str (v : value) : string :=
  match v with
  | VNone => "None"
  | VBool true => "True"
  | VBool false => "False"
  | VInt z => pretty z
  | VStr s => s
  | VOid (Oid h) => h
  end.

(** *** [int(...)] *)

(** The blanks [int] and [bytes.fromhex] skip in ASCII text: tab, line
    feed, vertical tab, form feed, carriage return and space. *)
Definition is_ws (c : ascii) : bool :=
  let n := nat_of_ascii c in
  ((9 <=? n) && (n <=? 13) || (n =? 32))%nat.

Definition digit_of (c : ascii) : option Z :=
  let n := nat_of_ascii c in
  if ((48 <=? n) && (n <=? 57))%nat then Some (Z.of_nat n - 48) else None.

Fixpoint lstrip (s : string) : string :=
  match s with
  | String c s' => if is_ws c then lstrip s' else s
  | EmptyString => EmptyString
  end.

Definition strip (s : string) : string :=
  String.rev (lstrip (String.rev (lstrip s))).

(** Decimal digits, single underscores allowed between two digits. *)
Fixpoint digits_value (s : string) (after_digit : bool) (acc : Z) : option Z :=
  match s with
  | EmptyString => if after_digit then Some acc else None
  | String c s' =>
      match digit_of c with
      | Some d => digits_value s' true (10 * acc + d)
      | None =>
          if Ascii.eqb c "_"%char && after_digit then digits_value s' false acc
          else None
      end
  end.

(** The number of digits of a literal, which [int] limits to 4300. *)
Fixpoint count_digits (s : string) : nat :=
  match s with
  | EmptyString => O
  | String c s' =>
      match digit_of c with
      | Some _ => S (count_digits s')
      | None => count_digits s'
      end
  end.

Definition digits_limited (s : string) : option Z :=
  if (count_digits s <=? 4300)%nat then digits_value s false 0 else None.

(** [int(s)] for a [str] in base ten.  This is [int] on ASCII text; text
    with other characters is taken as not a number here, although [int]
    also reads the decimal digits and blanks of other scripts.  The
    properties below that conclude a score, or the failure to compute one,
    are stated for priority fields that hold integers or [None], where
    no text is converted. *)
Definition int_of_str (s : string) : option Z :=
  match strip s with
  | String "-"%char r => Z.opp <$> digits_limited r
  | String "+"%char r => digits_limited r
  | r => digits_limited r
  end.

(** [int(v)]: [None] and an [ObjectId] are a [TypeError], text that is not
    a number a [ValueError]. *)
Definition py_int (v : value) : res Z :=
  match v with
  | VNone => Raise TypeError
  | VBool b => Ok (if b then 1 else 0)
  | VInt z => Ok z
  | VStr s => match int_of_str s with Some z => Ok z | None => Raise ValueError end
  | VOid _ => Raise TypeError
  end.

(** ** Helpers of main.py *)

(** [serialize_doc]: an empty dict is returned as it is; otherwise [_id]
    moves to [id] as text and every remaining [ObjectId] becomes text. *)
Definition oid_to_str (v : value) : value :=
  match v with
  | VOid o => VStr (py_str (VOid o))
  | _ => v
  end.

Definition serialize_doc (d : doc) : doc :=
  if bool_decide (d = ∅) then d
  else
    let d1 :=
      match d !! "_id" with
      | Some i => <["id" := VStr (py_str i)]> (delete "_id" d)
      | None => d
      end in
    oid_to_str <$> d1.

(** [score_task]. *)
Definition score_task (t : doc) : res Z :=
  let? impact := py_int (get_or t "impact" (VInt 5)) in
  let? effort := py_int (get_or t "effort" (VInt 3)) in
  let? urgency := py_int (get_or t "urgency" (VInt 5)) in
  Ok ((impact * 2) + urgency - effort).

(** ** Sorting with a key, largest first *)

(** [sorted(l, key=f, reverse=True)]: the key of every element is computed
    first, in order, and the first exception among them is the result;
    the sort is stable, so elements with equal keys keep the order they
    had in [l]. *)
Fixpoint keyed {A : Type} (key : A -> res Z) (l : list A) : res (list (Z * A)) :=
  match l with
  | [] => Ok []
  | x :: l' =>
      let? k := key x in
      let? kl := keyed key l' in
      Ok ((k, x) :: kl)
  end.

Fixpoint insert_desc {A : Type} (x : Z * A) (l : list (Z * A)) : list (Z * A) :=
  match l with
  | [] => [x]
  | y :: l' => if Z.leb (fst y) (fst x) then x :: y :: l' else y :: insert_desc x l'
  end.

Definition sort_desc {A : Type} (kl : list (Z * A)) : list (Z * A) :=
  foldr insert_desc [] kl.

Definition sorted_desc {A : Type} (key : A -> res Z) (l : list A) : res (list A) :=
  let? kl := keyed key l in
  Ok (map snd (sort_desc kl)).

(** [l[0]]. *)
Definition item0 {A : Type} (l : list A) : res A :=
  match l with
  | x :: _ => Ok x
  | [] => Raise IndexError
  end.

(** [d[k]]. *)
Definition getitem (d : doc) (k : string) : res value :=
  match d !! k with
  | Some v => Ok v
  | None => Raise (KeyError k)
  end.

(** ** The document store *)

(** A write request received by the store. *)
Inductive write : Type :=
| InsertOne (coll : string) (d : doc)
| UpdateOne (coll : string) (flt assignments : list (string * value))
    (matched_count : nat).

#[global] Instance write_eq_dec : EqDecision write.
Proof. solve_decision. Defined.

(** The state the handlers run against: the collections by name, each in
    the order the store reads it; the counter behind generated identities;
    and the write requests received so far, oldest first. *)
Record world : Type := World {
  colls : gmap string (list doc);
  next_oid : N;
  journal : list write
}.

#[global] Instance world_eq_dec : EqDecision world.
Proof. solve_decision. Defined.

Definition collection (w : world) (name : string) : list doc :=
  default [] (colls w !! name).

(** Handlers: state passing with exceptions. *)
Definition M (A : Type) : Type := world -> res A * world.

Definition ret {A : Type} (a : A) : M A := fun w => (Ok a, w).

Definition raise {A : Type} (e : exn) : M A := fun w => (Raise e, w).

Definition lift {A : Type} (r : res A) : M A := fun w => (r, w).

Definition bind {A B : Type} (m : M A) (k : A -> M B) : M B :=
  fun w =>
    match m w with
    | (Ok a, w') => k a w'
    | (Raise e, w') => (Raise e, w')
    end.

Notation "'do' x '<-' m ';' k" := (bind m (fun x => k))
  (at level 10, x name, m at level 100, k at level 200).

(** *** [bson.ObjectId] *)

Definition is_hex (c : ascii) : bool :=
  let n := nat_of_ascii c in
  ((48 <=? n) && (n <=? 57) || (65 <=? n) && (n <=? 70)
   || (97 <=? n) && (n <=? 102))%nat.

Definition lower (c : ascii) : ascii :=
  let n := nat_of_ascii c in
  if ((65 <=? n) && (n <=? 90))%nat then ascii_of_nat (n + 32) else c.

Fixpoint all_chars (p : ascii -> bool) (s : string) : bool :=
  match s with
  | EmptyString => true
  | String c s' => p c && all_chars p s'
  end.

Fixpoint map_chars (f : ascii -> ascii) (s : string) : string :=
  match s with
  | EmptyString => EmptyString
  | String c s' => String (f c) (map_chars f s')
  end.

(** [bytes.fromhex(s)], the bytes given by their lower-case hexadecimal
    digits: two adjacent digits per byte, blanks skipped before a byte and
    at the end; anything else is a [ValueError] ([None] here). *)
Fixpoint fromhex (s : string) : option string :=
  match s with
  | EmptyString => Some EmptyString
  | String c s' =>
      if is_ws c then fromhex s'
      else if is_hex c then
        match s' with
        | String d s'' =>
            if is_hex d
            then (fun r => String (lower c) (String (lower d) r)) <$> fromhex s''
            else None
        | EmptyString => None
        end
      else None
  end.

(** [ObjectId(s)] for a [str]: text of length 24 that [bytes.fromhex]
    reads, or [InvalidId] ([None] here).  The identity holds the bytes
    read, twelve of them when the text is 24 digits and fewer when it has
    blanks. *)
Definition ObjectId_of_str (s : string) : option ObjectId :=
  if (String.length s =? 24)%nat then Oid <$> fromhex s else None.

Definition hex_char (n : N) : ascii :=
  default "0"%char (String.get (N.to_nat n) "0123456789abcdef").

Fixpoint hex_go (k : nat) (n : N) (acc : string) : string :=
  match k with
  | O => acc
  | S k' => hex_go k' (n / 16)%N (String (hex_char (n mod 16)%N) acc)
  end.

(** The identity the store generates from its counter. *)
Definition gen_oid (n : N) : ObjectId := Oid (hex_go 24 n "").

(** *** The store operations used by main.py *)

(** An equality filter: every named field is present with that value. *)
Definition matches (flt : list (string * value)) (d : doc) : bool :=
  forallb (fun kv => bool_decide (d !! fst kv = Some (snd kv))) flt.

(** Modelled from the spec: [get_documents] of database.py, which is not
    among the sources; section 6, [find(collectionName, filter)], returns
    all documents matching an equality filter over named fields, in the
    store's order. *)
Definition get_documents (name : string) (flt : list (string * value)) : M (list doc) :=
  fun w => (Ok (List.filter (matches flt) (collection w name)), w).

(** Modelled from the spec: [create_document] of database.py, which is not
    among the sources; section 6, [insert(collectionName, document)],
    stores the document and returns its generated identity. *)
Definition create_document (name : string) (d : doc) : M string :=
  fun w =>
    let o := gen_oid (next_oid w) in
    (Ok (py_str (VOid o)),
     {| colls := <[name := (collection w name ++ [<["_id" := VOid o]> d])%list]> (colls w);
        next_oid := N.succ (next_oid w);
        journal := (journal w ++ [InsertOne name d])%list |}).

(** [$set]: partial field overwrites. *)
Definition apply_set (assignments : list (string * value)) (d : doc) : doc :=
  foldl (fun acc kv => <[fst kv := snd kv]> acc) d assignments.

Fixpoint update_first (flt assignments : list (string * value)) (l : list doc)
  : option (list doc) :=
  match l with
  | [] => None
  | d :: l' =>
      if matches flt d then Some (apply_set assignments d :: l')
      else cons d <$> update_first flt assignments l'
  end.

(** Modelled from the spec: [db[name].update_one(filter, {"$set": ...})],
    the handle [db] of database.py not being among the sources; section 6,
    [updateOne(collectionName, matchFilter, fieldAssignments)], applies
    partial field overwrites to at most one matching document and returns
    the matched count, 0 or 1. *)
Definition update_one (name : string) (flt assignments : list (string * value)) : M nat :=
  fun w =>
    match update_first flt assignments (collection w name) with
    | Some l' =>
        (Ok 1%nat,
         {| colls := <[name := l']> (colls w);
            next_oid := next_oid w;
            journal := (journal w ++ [UpdateOne name flt assignments 1])%list |})
    | None =>
        (Ok 0%nat,
         {| colls := colls w;
            next_oid := next_oid w;
            journal := (journal w ++ [UpdateOne name flt assignments 0])%list |})
    end.

(** ** Task endpoints *)

(** The Python value of an [Optional[str]] argument. *)
Definition opt_str (o : option string) : value :=
  match o with
  | Some s => VStr s
  | None => VNone
  end.

(** [pref_score], the closure of [next_task] over [user_email]. *)
Definition pref_score (user_email : option string) (t : doc) : res Z :=
  let? s := score_task t in
  let s := if truthy_str user_email
              && bool_decide (get t "assignee" = opt_str user_email)
           then s + 5 else s in
  let s := if negb (truthy (get t "assignee")) then s + 2 else s in
  Ok s.

(** The two shapes of the reply of [next_task]:
    [{"task": None, "message": m}] and [{"task": best_ser}]. *)
Inductive next_response : Type :=
| NoTask (message : string)
| Selected (task : doc).

#[global] Instance next_response_eq_dec : EqDecision next_response.
Proof. solve_decision. Defined.

Definition is_nil {A : Type} (l : list A) : bool :=
  match l with [] => true | _ => false end.

(** The candidate pool: backlog tasks, else blocked tasks. *)
Definition choose_pool : M (list doc) :=
  do backlog <- get_documents "task" [("status", VStr "backlog")];
  if is_nil backlog
  then
    do blocked <- get_documents "task" [("status", VStr "blocked")];
    ret blocked
  else ret backlog.

(** The candidate ranked first: [sorted(pool, key=pref_score, reverse=True)[0]]. *)
Definition select_best (user_email : option string) (pool : list doc) : res doc :=
  let? ranked := sorted_desc (pref_score user_email) pool in
  item0 ranked.

(** The claim of the selected task: one [update_one] keyed by its [_id],
    and the same two fields set on the copy that is returned. *)
Definition auto_assign (user_email : option string) (best best_ser : doc) : M doc :=
  if truthy_str user_email && eq_str (get best "status") "backlog"
  then
    do id <- lift (getitem best "_id");
    do _ <- update_one "task" [("_id", id)]
              [("status", VStr "in_progress"); ("assignee", opt_str user_email)];
    ret (<["assignee" := opt_str user_email]>
           (<["status" := VStr "in_progress"]> best_ser))
  else ret best_ser.

(** [next_task].  [best_ser] is a copy of [best] ([serialize_doc] only
    returns its argument itself when that is empty, which a document that
    matched a status filter is not), so the assignments to [best_ser]
    leave [best] as it was read. *)
Definition next_task (user_email : option string) : M next_response :=
  do pool <- choose_pool;
  if is_nil pool
  then ret (NoTask "No tasks available. Create one to get started.")
  else
    do best <- lift (select_best user_email pool);
    let best_ser := serialize_doc best in
    do best_ser <- auto_assign user_email best best_ser;
    do s <- lift (score_task best);
    ret (Selected (<["score" := VInt s]> best_ser)).

(** [update_task_status]; the payload is [TaskStatusUpdate], whose only
    field [status] is a [str]. *)
Definition update_task_status (task_id : string) (status : string) : M bool :=
  match ObjectId_of_str task_id with
  | None => raise (HTTPException 400 "Invalid task id")
  | Some oid =>
      do matched <- update_one "task" [("_id", VOid oid)] [("status", VStr status)];
      if (matched =? 0)%nat
      then raise (HTTPException 404 "Task not found")
      else ret true
  end.

(** ** Messaging and assistant *)

Record MessageCreate : Type := {
  sender : string;
  text : string;
  user_email : option string;
  topic : option string
}.

Definition model_dump (p : MessageCreate) : doc :=
  {[ "sender" := VStr (sender p); "text" := VStr (text p);
     "user_email" := opt_str (user_email p); "topic" := opt_str (topic p) ]}.

(** One line of the reply. *)
Definition bullet (t : doc) : res string :=
  let title := py_str (get t "title") in
  let? s := score_task t in
  let domain := py_str (get_or t "domain" (VStr "general")) in
  Ok ("- " ++ title ++ " (score " ++ py_str (VInt s) ++ ") — domain: " ++ domain).

Fixpoint map_res {A B : Type} (f : A -> res B) (l : list A) : res (list B) :=
  match l with
  | [] => Ok []
  | x :: l' =>
      let? y := f x in
      let? ys := map_res f l' in
      Ok (y :: ys)
  end.

Definition reply_intro : string :=
  "Basierend auf deinem aktuellen Backlog würde ich diese Schritte priorisieren:" ++ nl.

Definition reply_closing : string :=
  "Nutze den Button 'Ich bin frei', um dir direkt den nächsten Schritt zuzuweisen.".

Definition reply_fallback : string :=
  "Ich sehe noch keine Aufgaben. Erstelle 3-5 klare, wirkungsstarke Tasks mit Impact,"
  ++ " Effort und Urgency – dann priorisiere ich sie automatisch.".

(** The text of the assistant's reply for the tasks read from the store. *)
Definition compose_reply (tasks : list doc) : res string :=
  let? tasks_sorted := sorted_desc score_task tasks in
  let top := map serialize_doc (take 3 tasks_sorted) in
  if negb (is_nil top)
  then
    let? lines := map_res bullet top in
    let bullets := String.concat nl lines in
    Ok (reply_intro ++ bullets ++ nl ++ nl ++ reply_closing)
  else Ok reply_fallback.

(** [x or "general"] for an [Optional[str]]. *)
Definition or_general (o : option string) : string :=
  match o with
  | Some s => if bool_decide (s = "") then "general" else s
  | None => "general"
  end.

(** The assistant's message, [ai_msg]. *)
Definition ai_msg (payload : MessageCreate) (reply : string) : doc :=
  {[ "sender" := VStr "ai"; "text" := VStr reply;
     "user_email" := opt_str (user_email payload);
     "topic" := VStr (or_general (topic payload)) ]}.

(** [create_message]. *)
Definition create_message (payload : MessageCreate) : M bool :=
  let msg_dict := model_dump payload in
  do _ <- create_document "message" msg_dict;
  do tasks <- get_documents "task" [];
  do reply <- lift (compose_reply tasks);
  do _ <- create_document "message" (ai_msg payload reply);
  ret true.

(** ** Listing and creating tasks *)

(** The [Task] model of schemas.py, as a handler receives it: a payload
    that passed validation.  [TaskCreate] adds nothing to it. *)
Record Task : Type := {
  title : string;
  description : option string;
  domain : option string;
  impact : Z;
  effort : Z;
  urgency : Z;
  status : string;
  assignee : option string
}.

(** The values of the two [Literal] fields. *)
Definition domains : list string :=
  ["product"; "growth"; "sales"; "ops"; "finance"; "people"; "legal"; "data";
   "research"; "general"].

Definition statuses : list string := ["backlog"; "in_progress"; "done"; "blocked"].

(** What validation established: [ge=1, le=10] on the three priority
    fields, a domain that is [None] or one of [domains], a status among
    [statuses]. *)
Definition Task_valid (t : Task) : bool :=
  Z.leb 1 (impact t) && Z.leb (impact t) 10
  && Z.leb 1 (effort t) && Z.leb (effort t) 10
  && Z.leb 1 (urgency t) && Z.leb (urgency t) 10
  && match domain t with
     | Some d => bool_decide (d ∈ domains)
     | None => true
     end
  && bool_decide (status t ∈ statuses).

(** [payload.model_dump()] for a [Task]. *)
Definition task_dump (t : Task) : doc :=
  {[ "title" := VStr (title t); "description" := opt_str (description t);
     "domain" := opt_str (domain t); "impact" := VInt (impact t);
     "effort" := VInt (effort t); "urgency" := VInt (urgency t);
     "status" := VStr (status t); "assignee" := opt_str (assignee t) ]}.

(** [create_task]; the answer [{"id": task_id}] is given by its [task_id]. *)
Definition create_task (payload : Task) : M string :=
  let task_dict := task_dump payload in
  do task_id <- create_document "task" task_dict;
  ret task_id.

(** The body of the loop of [list_tasks]: serialise, then attach the score
    of the serialised document. *)
Definition enrich (d : doc) : res doc :=
  let d := serialize_doc d in
  let? s := score_task d in
  Ok (<["score" := VInt s]> d).

(** The sort key of [list_tasks], [x.get("score", 0)].  The field has just
    been set to an [int] on every element; no other value reaches the
    sort. *)
Definition score_key (x : doc) : res Z :=
  match get_or x "score" (VInt 0) with
  | VInt z => Ok z
  | _ => Raise TypeError
  end.

(** [list_tasks]; the answer [{"items": enriched}] is given by its items. *)
Definition list_tasks (status : option string) : M (list doc) :=
  let filter_q := if truthy_str status then [("status", opt_str status)] else [] in
  do docs <- get_documents "task" filter_q;
  do enriched <- lift (map_res enrich docs);
  do enriched <- lift (sorted_desc score_key enriched);
  ret enriched.

(** * Properties *)

(** ** Words of the specification *)

(** A priority field honours the Task invariant: absent, or an integer
    between 1 and 10. *)
Definition field_in_range (t : doc) (k : string) : bool :=
  match t !! k with
  | None => true
  | Some (VInt z) => Z.leb 1 z && Z.leb z 10
  | Some _ => false
  end.

Definition task_invariant (t : doc) : bool :=
  field_in_range t "impact" && field_in_range t "effort"
  && field_in_range t "urgency".

(** The integer a priority field stands for, the default when absent. *)
Definition field_or (t : doc) (k : string) (dflt : Z) : Z :=
  match t !! k with
  | Some (VInt z) => z
  | _ => dflt
  end.

(** The task is assigned to [who]. *)
Definition assigned_to (t : doc) (who : string) : bool :=
  bool_decide (t !! "assignee" = Some (VStr who)).

(** The task has no assignee: the field is absent, [None] or empty. *)
Definition unassigned (t : doc) : bool := negb (truthy (get t "assignee")).

(** A caller identity is given: a non-empty string. *)
Definition caller_given (user_email : option string) : bool :=
  match user_email with
  | Some s => negb (bool_decide (s = ""))
  | None => false
  end.

(** The tasks of the store with a given status, in the store's order. *)
Definition with_status (s : string) (w : world) : list doc :=
  List.filter (matches [("status", VStr s)]) (collection w "task").

(** The pool [next_task] ranks. *)
Definition pool_of (w : world) : list doc :=
  if is_nil (with_status "backlog" w) then with_status "blocked" w
  else with_status "backlog" w.

(** The task as a claim stores it. *)
Definition claimed (user_email : option string) (best : doc) : doc :=
  <["assignee" := opt_str user_email]> (<["status" := VStr "in_progress"]> best).

(** The task as [next_task] returns it: serialised, claimed for the caller
    when a caller is given and the task is in the backlog, and with its
    score attached. *)
Definition returned (user_email : option string) (best : doc) (s : Z) : doc :=
  <["score" := VInt s]>
    (if caller_given user_email && eq_str (get best "status") "backlog"
     then <["assignee" := opt_str user_email]>
            (<["status" := VStr "in_progress"]> (serialize_doc best))
     else serialize_doc best).



(** One of the three priority fields of a task is present and [None]. *)
Definition null_priority (t : doc) : bool :=
  bool_decide (t !! "impact" = Some VNone)
  || bool_decide (t !! "effort" = Some VNone)
  || bool_decide (t !! "urgency" = Some VNone).



(** The status of a stored task is one of the four of the schema. *)
Definition valid_status (d : doc) : bool :=
  bool_decide (d !! "status" = Some (VStr "backlog"))
  || bool_decide (d !! "status" = Some (VStr "in_progress"))
  || bool_decide (d !! "status" = Some (VStr "done"))
  || bool_decide (d !! "status" = Some (VStr "blocked")).

Definition status_invariant (w : world) : bool :=
  forallb valid_status (collection w "task").


(** A document as the store keeps it, under the identity of counter [n]. *)
Definition stored (n : N) (d : doc) : doc := <["_id" := VOid (gen_oid n)]> d.

(** The documents [list_tasks] reads for a status argument. *)
Definition listed (status : option string) (w : world) : list doc :=
  match status with
  | Some s => if bool_decide (s = "") then collection w "task" else with_status s w
  | None => collection w "task"
  end.

(** A task as [list_tasks] shows it, given its score. *)
Definition item_of (t : doc) (s : Z) : doc := <["score" := VInt s]> (serialize_doc t).

(** One field of every stored task, in the store's order. *)
Definition column (k : string) (w : world) : list (option value) :=
  map (fun d => d !! k) (collection w "task").

(** Every stored task has an identity and no two share one, as the store
    guarantees for [_id]. *)
Definition ids_ok (l : list doc) : Prop :=
  Forall (fun d => is_Some (d !! "_id")) l /\ NoDup (map (fun d => d !! "_id") l).

(** Descending order of keys. *)
Definition key_ge {A : Type} (a b : Z * A) : Prop := fst b <= fst a.

(** ** Sample data *)

Definition mk_task (n : N) (title : string) (impact effort urgency : Z)
    (status : string) (assignee : value) : doc :=
  {[ "_id" := VOid (gen_oid n); "title" := VStr title; "domain" := VStr "general";
     "impact" := VInt impact; "effort" := VInt effort; "urgency" := VInt urgency;
     "status" := VStr status; "assignee" := assignee ]}.

Definition mk_world (tasks : list doc) : world :=
  {| colls := {[ "task" := tasks ]}; next_oid := 100; journal := [] |}.

(** The two backlog tasks of section 8, both of score 10. *)
Definition task_A : doc := mk_task 1 "A" 4 3 5 "backlog" VNone.
Definition task_B : doc := mk_task 2 "B" 4 3 5 "backlog" (VStr "u@x").

(** The store [[A; B]] after u@x has claimed B. *)
Definition world_AB_claimed : world :=
  {| colls := {[ "task" := [task_A; claimed (Some "u@x") task_B] ]};
     next_oid := 100;
     journal := [UpdateOne "task" [("_id", VOid (gen_oid 2))]
                   [("status", VStr "in_progress"); ("assignee", VStr "u@x")] 1] |}.

(** A blocked task, and a backlog task of score 12 assigned to somebody
    else. *)
Definition task_C : doc := mk_task 3 "C" 9 1 9 "blocked" VNone.
Definition task_E : doc := mk_task 4 "E" 5 3 5 "backlog" (VStr "v@x").

(** A finished task that only states its impact: score 20. *)
Definition task_F : doc :=
  {[ "_id" := VOid (gen_oid 5); "title" := VStr "F"; "impact" := VInt 9;
     "status" := VStr "done" ]}.

(** A message whose sender is not user. *)
Definition sample_payload : MessageCreate :=
  {| sender := "ai"; text := "hello"; user_email := Some "u@x"; topic := Some "growth" |}.

(** A valid payload of [create_task]: score 23. *)
Definition sample_task : Task :=
  {| title := "Ship"; description := None; domain := Some "product";
     impact := 8; effort := 2; urgency := 9; status := "backlog"; assignee := None |}.

(** Two more valid payloads, the first with [domain = None], which
    [Optional[Literal[...]]] accepts: scores 26 and 12. *)
Definition plan_task : Task :=
  {| title := "Plan"; description := None; domain := None;
     impact := 9; effort := 1; urgency := 9; status := "backlog"; assignee := None |}.

Definition hire_task : Task :=
  {| title := "Hire"; description := None; domain := Some "people";
     impact := 5; effort := 3; urgency := 5; status := "backlog"; assignee := None |}.

(** The store after [create_task] on the three payloads, from an empty
    store. *)
Definition world_three : world :=
  snd (create_task hire_task
         (snd (create_task plan_task (snd (create_task sample_task (mk_world [])))))).

(** A message of a user. *)
Definition user_payload : MessageCreate :=
  {| sender := "user"; text := "hello"; user_email := Some "u@x"; topic := Some "growth" |}.

(** ** Results and the handler monad *)

(** Closed, decidable goals are settled by evaluation. *)
Ltac by_eval := apply (bool_decide_eq_true_1 _); vm_compute; reflexivity.

Section Res.
Context {A B : Type}.

Lemma res_bind_ok (r : res A) (k : A -> res B) (b : B) :
  res_bind r k = Ok b -> exists a, r = Ok a /\ k a = Ok b.
Proof. destruct r as [a|e]; simpl; [eauto | discriminate]. Qed.

Lemma bind_lift (r : res A) (k : A -> M B) (w : world) :
  bind (lift r) k w = match r with Ok a => k a w | Raise e => (Raise e, w) end.
Proof. unfold bind, lift. destruct r; reflexivity. Qed.
End Res.

(** ** Keys and the stable descending sort *)

Section Sorting.
Context {A : Type}.
Implicit Types (key : A -> res Z) (l : list A) (kl : list (Z * A)).

Lemma keyed_ok key l kl :
  keyed key l = Ok kl ->
  map snd kl = l /\ Forall (fun kx => key (snd kx) = Ok (fst kx)) kl.
Proof.
  revert kl. induction l as [|x l IH]; intros kl H; simpl in H.
  - injection H as <-. split; [reflexivity | constructor].
  - apply res_bind_ok in H as (k & Hk & H).
    apply res_bind_ok in H as (kl' & Hkl & H).
    injection H as <-. destruct (IH _ Hkl) as [Hm Hf].
    split; [simpl; congruence | constructor; [exact Hk | exact Hf]].
Qed.


Lemma insert_desc_perm (x : Z * A) kl : insert_desc x kl ≡ₚ x :: kl.
Proof.
  induction kl as [|y kl IH]; simpl; [reflexivity|].
  destruct (Z.leb (fst y) (fst x)); [reflexivity|].
  rewrite IH. apply perm_swap.
Qed.

Lemma sort_desc_perm kl : sort_desc kl ≡ₚ kl.
Proof.
  induction kl as [|x kl IH]; simpl; [reflexivity|].
  unfold sort_desc in *. simpl. rewrite insert_desc_perm. by rewrite IH.
Qed.

Lemma insert_desc_sorted (x : Z * A) kl :
  StronglySorted key_ge kl -> StronglySorted key_ge (insert_desc x kl).
Proof.
  induction 1 as [|y kl Hs IH Hall]; simpl.
  - repeat constructor.
  - destruct (Z.leb_spec (fst y) (fst x)) as [Hle|Hlt].
    + constructor; [by constructor|].
      constructor; [exact Hle|].
      eapply Forall_impl; [exact Hall|]. unfold key_ge. intros z Hz. lia.
    + constructor; [exact IH|].
      rewrite insert_desc_perm. constructor; [unfold key_ge; lia | exact Hall].
Qed.

Lemma sort_desc_sorted kl : StronglySorted key_ge (sort_desc kl).
Proof.
  induction kl as [|x kl IH]; [constructor|].
  apply insert_desc_sorted, IH.
Qed.

(** The head of the sorted list is the first element of the input whose
    key is the largest. *)
Lemma sort_desc_head kl :
  kl <> [] ->
  exists pre x post,
    kl = (pre ++ x :: post)%list
    /\ head (sort_desc kl) = Some x
    /\ Forall (fun y => fst y < fst x) pre
    /\ Forall (fun y => fst y <= fst x) post.
Proof.
  induction kl as [|a kl IH]; [done|]. intros _.
  destruct kl as [|b kl].
  - exists [], a, []. repeat split; constructor.
  - destruct IH as (pre & x & post & Heq & Hhd & Hpre & Hpost); [done|].
    change (sort_desc (a :: b :: kl)) with (insert_desc a (sort_desc (b :: kl))).
    destruct (sort_desc (b :: kl)) as [|y rest]; [discriminate|].
    simpl in Hhd. injection Hhd as ->. simpl.
    destruct (Z.leb_spec (fst x) (fst a)) as [Hle|Hlt].
    + exists [], a, (b :: kl). repeat split; [constructor|].
      rewrite Heq. apply Forall_app. split.
      * eapply Forall_impl; [exact Hpre|]. simpl. intros; lia.
      * constructor; [exact Hle|].
        eapply Forall_impl; [exact Hpost|]. simpl. intros; lia.
    + exists (a :: pre), x, post. rewrite Heq. repeat split; [|exact Hpost].
      constructor; [exact Hlt | exact Hpre].
Qed.


End Sorting.

(** ** Scoring *)

Example score_task_example :
  score_task {[ "impact" := VInt 8; "urgency" := VInt 9; "effort" := VInt 2 ]} = Ok 23.
Proof. vm_compute. reflexivity. Qed.

Example py_int_examples :
  py_int (VStr " -1_0 ") = Ok (-10) /\ py_int (VStr "1__0") = Raise ValueError
  /\ py_str (VInt (-23)) = "-23" /\ py_str (VInt 0) = "0".
Proof. vm_compute. repeat split. Qed.

(** C1: on every task whose impact, effort and urgency are integers in
    [1,10] when present, [score_task] returns (it raises nothing) the value
    impact*2 + urgency - effort, with 5, 3 and 5 standing for an absent
    impact, effort and urgency.  It is a function of the task alone: it
    takes no store and returns none. *)
Theorem score_task_formula (t : doc) :
  task_invariant t = true ->
  score_task t
  = Ok (field_or t "impact" 5 * 2 + field_or t "urgency" 5 - field_or t "effort" 3).
Proof.
  unfold task_invariant, field_in_range, score_task, get_or, field_or.
  intros [[Hi He]%andb_true_iff Hu]%andb_true_iff.
  destruct (t !! "impact") as [[| | |?|]|]; try discriminate;
    destruct (t !! "effort") as [[| | |?|]|]; try discriminate;
    destruct (t !! "urgency") as [[| | |?|]|]; try discriminate;
    reflexivity.
Qed.

Lemma score_task_formula_witness :
  task_invariant {[ "impact" := VInt 8; "urgency" := VInt 9 ]} = true
  /\ score_task {[ "impact" := VInt 8; "urgency" := VInt 9 ]} = Ok (8 * 2 + 9 - 3).
Proof.
  split; [vm_compute; reflexivity|].
  exact (score_task_formula {[ "impact" := VInt 8; "urgency" := VInt 9 ]} eq_refl).
Defined.

(** ** Preference *)

Lemma caller_given_truthy (user_email : option string) :
  truthy_str user_email = caller_given user_email.
Proof. destruct user_email; reflexivity. Qed.

(** The preference as a sum of the score and the two bonuses. *)
Lemma pref_score_eq (user_email : option string) (t : doc) :
  pref_score user_email t
  = (let? s := score_task t in
     Ok (s + (if caller_given user_email
                 && bool_decide (t !! "assignee" = Some (opt_str user_email))
              then 5 else 0)
           + (if unassigned t then 2 else 0))).
Proof.
  unfold pref_score, unassigned, caller_given, get.
  destruct (score_task t) as [s|e]; simpl; [|reflexivity].
  destruct user_email as [who|]; simpl;
    destruct (t !! "assignee") as [v|] eqn:Hv; simpl;
    repeat (case_bool_decide; simplify_eq; simpl);
    try destruct (truthy v); simpl; f_equal; lia.
Qed.

(** C2: the preference of a candidate is its score, plus 5 exactly when a
    caller identity is given and the task is assigned to it, plus 2 exactly
    when the task has no assignee; the two bonuses never meet on one task.
    With the backlog tasks A (score 10, no assignee) and B (score 10,
    assignee u@x) and the caller u@x the preferences are 12 and 15, and B
    is selected whichever of the two the store returns first. *)
Theorem pref_score_bonuses (user_email : option string) (t : doc) :
  let caller_bonus :=
    match user_email with
    | Some who => caller_given user_email && assigned_to t who
    | None => false
    end in
  pref_score user_email t
  = (let? s := score_task t in
     Ok (s + (if caller_bonus then 5 else 0) + (if unassigned t then 2 else 0)))
  /\ caller_bonus && unassigned t = false
  /\ (t !! "assignee" = None \/ t !! "assignee" = Some VNone
      \/ t !! "assignee" = Some (VStr "") -> unassigned t = true)
  /\ (forall who, who <> "" -> t !! "assignee" = Some (VStr who) -> unassigned t = false)
  /\ score_task task_A = Ok 10 /\ score_task task_B = Ok 10
  /\ pref_score (Some "u@x") task_A = Ok 12
  /\ pref_score (Some "u@x") task_B = Ok 15
  /\ select_best (Some "u@x") [task_A; task_B] = Ok task_B
  /\ select_best (Some "u@x") [task_B; task_A] = Ok task_B
  /\ next_task (Some "u@x") (mk_world [task_A; task_B])
     = (Ok (Selected (returned (Some "u@x") task_B 10)), world_AB_claimed).
Proof.
  cbv zeta. split; [|split; [|split; [|split]]].
  - rewrite pref_score_eq. destruct user_email as [who|]; reflexivity.
  - unfold unassigned, assigned_to, caller_given, get.
    destruct user_email as [who|]; [|reflexivity].
    repeat case_bool_decide; simplify_eq; simpl; try reflexivity.
    match goal with H : _ !! _ = _ |- _ => rewrite H end. simpl.
    by rewrite bool_decide_eq_false_2.
  - unfold unassigned, get. intros [-> | [-> | ->]]; reflexivity.
  - unfold unassigned, get. intros who Hne ->. simpl.
    rewrite bool_decide_eq_false_2 by exact Hne. reflexivity.
  - repeat split; by_eval.
Qed.

(** ** Selection *)

Lemma pref_score_score (user_email : option string) (t : doc) (p : Z) :
  pref_score user_email t = Ok p -> exists s, score_task t = Ok s.
Proof.
  unfold pref_score. intros H. apply res_bind_ok in H as (s & Hs & _). eauto.
Qed.

Lemma score_pref_score (user_email : option string) (t : doc) (s : Z) :
  score_task t = Ok s -> exists p, pref_score user_email t = Ok p.
Proof. unfold pref_score. intros ->. simpl. eauto. Qed.

(** What [sorted_desc] returns is the input rearranged, keys descending. *)
Lemma sorted_desc_spec {A : Type} (key : A -> res Z) (l l' : list A) :
  sorted_desc key l = Ok l' ->
  l' ≡ₚ l
  /\ StronglySorted
       (fun a b => exists ka kb, key a = Ok ka /\ key b = Ok kb /\ kb <= ka) l'.
Proof.
  unfold sorted_desc. intros H. apply res_bind_ok in H as (kl & Hkl & H).
  injection H as <-. destruct (keyed_ok _ _ _ Hkl) as [Hmap Hkeys]. split.
  - rewrite <- Hmap. apply fmap_Permutation, sort_desc_perm.
  - assert (Hs := sort_desc_sorted kl).
    assert (Hk : Forall (fun kx => key (snd kx) = Ok (fst kx)) (sort_desc kl))
      by (by rewrite sort_desc_perm).
    clear Hkl Hmap Hkeys. induction Hs as [|x skl Hs IH Hall]; simpl; [constructor|].
    apply Forall_cons in Hk as [Hx Hk]. constructor; [by apply IH|].
    apply Forall_fmap. apply Forall_forall. intros y Hy. simpl.
    exists (fst x), (fst y). repeat split; [exact Hx| |].
    + by apply (proj1 (Forall_forall _ _) Hk).
    + by apply (proj1 (Forall_forall _ _) Hall).
Qed.




(** The selected candidate is the first of the pool, in the pool's order,
    among those of the largest preference. *)
Lemma select_best_first_max (user_email : option string) (pool : list doc) (best : doc) :
  select_best user_email pool = Ok best ->
  exists pre post p,
    pool = (pre ++ best :: post)%list
    /\ pref_score user_email best = Ok p
    /\ Forall (fun t => exists q, pref_score user_email t = Ok q /\ q < p) pre
    /\ Forall (fun t => exists q, pref_score user_email t = Ok q /\ q <= p) post.
Proof.
  unfold select_best, sorted_desc. intros H.
  apply res_bind_ok in H as (ranked & H & Hhd).
  apply res_bind_ok in H as (kl & Hkl & H). injection H as <-.
  destruct (keyed_ok _ _ _ Hkl) as [Hmap Hkeys].
  destruct (decide (kl = [])) as [->|Hne]; [discriminate|].
  destruct (sort_desc_head kl Hne) as (pre & x & post & -> & Hx & Hpre & Hpost).
  destruct (sort_desc (pre ++ x :: post)) as [|y rest]; [discriminate|].
  simpl in Hx, Hhd. injection Hx as ->. injection Hhd as <-.
  apply Forall_app in Hkeys as [Kpre Kx]. apply Forall_cons in Kx as [Kx Kpost].
  exists (map snd pre), (map snd post), (fst x). repeat split.
  - rewrite <- Hmap, map_app. reflexivity.
  - exact Kx.
  - apply Forall_fmap, Forall_forall. intros y Hy. exists (fst y). split.
    + by apply (proj1 (Forall_forall _ _) Kpre).
    + by apply (proj1 (Forall_forall _ _) Hpre).
  - apply Forall_fmap, Forall_forall. intros y Hy. exists (fst y). split.
    + by apply (proj1 (Forall_forall _ _) Kpost).
    + by apply (proj1 (Forall_forall _ _) Hpost).
Qed.


Lemma select_best_elem (user_email : option string) (pool : list doc) (best : doc) :
  select_best user_email pool = Ok best ->
  best ∈ pool /\ exists s, score_task best = Ok s.
Proof.
  intros H. destruct (select_best_first_max _ _ _ H) as (pre & post & p & -> & Hp & _).
  split; [set_solver | by eapply pref_score_score].
Qed.

(** ** The store *)

Lemma matches_status (s : string) (d : doc) :
  matches [("status", VStr s)] d = true <-> d !! "status" = Some (VStr s).
Proof.
  unfold matches. simpl. rewrite andb_true_r. apply bool_decide_eq_true.
Qed.

Lemma matches_id (id : value) (d : doc) :
  matches [("_id", id)] d = bool_decide (d !! "_id" = Some id).
Proof. unfold matches. simpl. apply andb_true_r. Qed.

Lemma with_status_elem (s : string) (w : world) (d : doc) :
  d ∈ with_status s w <-> d ∈ collection w "task" /\ d !! "status" = Some (VStr s).
Proof.
  unfold with_status. rewrite !list_elem_of_In, filter_In, matches_status. tauto.
Qed.

Lemma pool_of_status (w : world) (d : doc) :
  d ∈ pool_of w ->
  d ∈ collection w "task"
  /\ (d !! "status" = Some (VStr "backlog")
      \/ with_status "backlog" w = [] /\ d !! "status" = Some (VStr "blocked")).
Proof.
  unfold pool_of. destruct (with_status "backlog" w) as [|b l] eqn:Hb; simpl.
  - rewrite with_status_elem. tauto.
  - rewrite <- Hb, with_status_elem. tauto.
Qed.

Lemma collection_insert (w : world) (name : string) (l : list doc) (n : N) (j : list write) :
  collection {| colls := <[name := l]> (colls w); next_oid := n; journal := j |} name = l.
Proof. unfold collection. simpl. by rewrite lookup_insert_eq. Qed.

Lemma collection_insert_ne (w : world) (name other : string) (l : list doc) (n : N)
    (j : list write) :
  name <> other ->
  collection {| colls := <[name := l]> (colls w); next_oid := n; journal := j |} other
  = collection w other.
Proof. intros H. unfold collection. simpl. by rewrite lookup_insert_ne. Qed.

(** [update_first] rewrites the first matching document and no other. *)
Lemma update_first_spec (flt asg : list (string * value)) (l : list doc) :
  match update_first flt asg l with
  | Some l' =>
      exists pre d post,
        l = (pre ++ d :: post)%list /\ matches flt d = true
        /\ Forall (fun x => matches flt x = false) pre
        /\ l' = (pre ++ apply_set asg d :: post)%list
  | None => Forall (fun x => matches flt x = false) l
  end.
Proof.
  induction l as [|x l IH]; simpl; [constructor|].
  destruct (matches flt x) eqn:Hx.
  - exists [], x, l. repeat split; [exact Hx | constructor].
  - destruct (update_first flt asg l) as [l'|]; simpl.
    + destruct IH as (pre & d & post & -> & Hd & Hpre & ->).
      exists (x :: pre), d, post. repeat split; [exact Hd|]. by constructor.
    + by constructor.
Qed.

(** With distinct identities, a document of the list is the only one that
    carries its identity. *)
Lemma ids_ok_split (l : list doc) (d : doc) (id : value) :
  ids_ok l -> d ∈ l -> d !! "_id" = Some id ->
  exists pre post,
    l = (pre ++ d :: post)%list
    /\ Forall (fun x => x !! "_id" <> Some id) pre
    /\ Forall (fun x => x !! "_id" <> Some id) post.
Proof.
  intros [_ Hnd] Hin Hid.
  apply list_elem_of_split in Hin as (pre & post & ->).
  exists pre, post. split; [reflexivity|].
  rewrite map_app in Hnd. simpl in Hnd.
  apply NoDup_app in Hnd as (_ & Hdisj & Hnd).
  apply NoDup_cons in Hnd as [Hpost _].
  split; apply Forall_forall; intros x Hx Heq.
  - apply (Hdisj (x !! "_id")).
    + apply list_elem_of_fmap. eauto.
    + rewrite Heq, <- Hid. left.
  - apply Hpost. rewrite Hid, <- Heq. apply list_elem_of_fmap. eauto.
Qed.

Lemma filter_none {A : Type} (p : A -> bool) (l : list A) :
  Forall (fun x => p x = false) l -> List.filter p l = [].
Proof. induction 1 as [|x l Hx _ IH]; simpl; [|rewrite Hx]; done. Qed.

(** ** The steps of [next_task] *)

Lemma choose_pool_eq (w : world) : choose_pool w = (Ok (pool_of w), w).
Proof.
  unfold choose_pool, pool_of, bind, get_documents, with_status, ret.
  destruct (List.filter _ (collection w "task")); reflexivity.
Qed.

Lemma next_task_unfold (user_email : option string) (w : world) :
  next_task user_email w
  = if is_nil (pool_of w)
    then (Ok (NoTask "No tasks available. Create one to get started."), w)
    else
      match select_best user_email (pool_of w) with
      | Raise e => (Raise e, w)
      | Ok best =>
          match auto_assign user_email best (serialize_doc best) w with
          | (Raise e, w') => (Raise e, w')
          | (Ok best_ser, w') =>
              match score_task best with
              | Raise e => (Raise e, w')
              | Ok s => (Ok (Selected (<["score" := VInt s]> best_ser)), w')
              end
          end
      end.
Proof.
  unfold next_task. unfold bind at 1. rewrite choose_pool_eq.
  destruct (is_nil (pool_of w)); [reflexivity|].
  rewrite bind_lift. destruct (select_best user_email (pool_of w)) as [best|e]; [|reflexivity].
  unfold bind at 1.
  destruct (auto_assign user_email best (serialize_doc best) w) as [[bs|e] w']; [|reflexivity].
  rewrite bind_lift. destruct (score_task best); reflexivity.
Qed.

(** [serialize_doc] keeps every field but [_id] and [id], an [ObjectId]
    among them turned into its text. *)
Lemma serialize_doc_lookup (d : doc) (k : string) :
  k <> "_id" -> k <> "id" -> serialize_doc d !! k = oid_to_str <$> d !! k.
Proof.
  intros H1 H2. unfold serialize_doc. case_bool_decide as Hd.
  - subst d. by rewrite lookup_empty.
  - rewrite lookup_fmap. destruct (d !! "_id"); [|reflexivity].
    by rewrite lookup_insert_ne, lookup_delete_ne.
Qed.

Lemma update_first_app (flt asg : list (string * value)) (pre post : list doc) (d : doc) :
  Forall (fun x => matches flt x = false) pre -> matches flt d = true ->
  update_first flt asg (pre ++ d :: post) = Some (pre ++ apply_set asg d :: post)%list.
Proof.
  intros Hpre Hd. induction Hpre as [|x pre Hx _ IH]; simpl.
  - by rewrite Hd.
  - by rewrite Hx, IH.
Qed.

Lemma eq_str_status (d : doc) (s : string) :
  eq_str (get d "status") s = true <-> d !! "status" = Some (VStr s).
Proof.
  unfold eq_str, get. rewrite bool_decide_eq_true.
  destruct (d !! "status"); simpl; split; congruence.
Qed.

Lemma not_matches_id (id : value) (l : list doc) :
  Forall (fun x => x !! "_id" <> Some id) l ->
  Forall (fun x => matches [("_id", id)] x = false) l.
Proof.
  intros H. eapply Forall_impl; [exact H|].
  intros x Hx. rewrite matches_id. by apply bool_decide_eq_false_2.
Qed.

(** Without a caller, or on a task that is not in the backlog,
    [auto_assign] leaves the world alone. *)
Lemma auto_assign_skip (user_email : option string) (best best_ser : doc) (w : world) :
  truthy_str user_email && eq_str (get best "status") "backlog" = false ->
  auto_assign user_email best best_ser w = (Ok best_ser, w).
Proof. unfold auto_assign. by intros ->. Qed.

(** Otherwise it sends one update, which rewrites the selected task. *)
Lemma auto_assign_claim (user_email : option string) (best best_ser : doc) (id : value)
    (pre post : list doc) (w : world) :
  truthy_str user_email && eq_str (get best "status") "backlog" = true ->
  best !! "_id" = Some id ->
  collection w "task" = (pre ++ best :: post)%list ->
  Forall (fun x => x !! "_id" <> Some id) pre ->
  auto_assign user_email best best_ser w
  = (Ok (<["assignee" := opt_str user_email]> (<["status" := VStr "in_progress"]> best_ser)),
     {| colls :=
          <["task" := (pre ++ <["assignee" := opt_str user_email]>
                                (<["status" := VStr "in_progress"]> best) :: post)%list]>
            (colls w);
        next_oid := next_oid w;
        journal :=
          (journal w
           ++ [UpdateOne "task" [("_id", id)]
                 [("status", VStr "in_progress"); ("assignee", opt_str user_email)] 1])%list |}).
Proof.
  intros Hc Hid Hl Hpre. unfold auto_assign. rewrite Hc, bind_lift.
  unfold getitem. rewrite Hid. unfold bind, update_one, ret. rewrite Hl.
  rewrite (update_first_app _ _ pre post best).
  - reflexivity.
  - by apply not_matches_id.
  - rewrite matches_id. by apply bool_decide_eq_true_2.
Qed.

(** Every outcome of [next_task], by cases. *)
Lemma next_task_cases (user_email : option string) (w : world) :
  (pool_of w = []
   /\ next_task user_email w
      = (Ok (NoTask "No tasks available. Create one to get started."), w))
  \/ (pool_of w <> []
      /\ exists e, select_best user_email (pool_of w) = Raise e
                   /\ next_task user_email w = (Raise e, w))
  \/ (exists best s,
        select_best user_email (pool_of w) = Ok best
        /\ score_task best = Ok s
        /\ best ∈ pool_of w
        /\ match auto_assign user_email best (serialize_doc best) w with
           | (Ok best_ser, w') =>
               next_task user_email w = (Ok (Selected (<["score" := VInt s]> best_ser)), w')
           | (Raise e, w') => next_task user_email w = (Raise e, w')
           end).
Proof.
  rewrite next_task_unfold.
  destruct (pool_of w) as [|x l] eqn:Hp; [left; done|]. rewrite <- Hp. simpl.
  destruct (is_nil (pool_of w)) eqn:Hn; [rewrite Hp in Hn; discriminate|].
  right. destruct (select_best user_email (pool_of w)) as [best|e] eqn:Hb.
  - right. destruct (select_best_elem _ _ _ Hb) as [Hin [s Hs]].
    exists best, s. rewrite Hs. repeat split; try done.
    by destruct (auto_assign user_email best (serialize_doc best) w) as [[?|?] ?].
  - left. split; [by rewrite Hp|]. eauto.
Qed.

Lemma auto_assign_ok (user_email : option string) (best best_ser bs : doc) (w w' : world) :
  auto_assign user_email best best_ser w = (Ok bs, w') ->
  (truthy_str user_email && eq_str (get best "status") "backlog" = true
   /\ bs = <["assignee" := opt_str user_email]> (<["status" := VStr "in_progress"]> best_ser))
  \/ (truthy_str user_email && eq_str (get best "status") "backlog" = false
      /\ bs = best_ser /\ w' = w).
Proof.
  unfold auto_assign.
  destruct (truthy_str user_email && eq_str (get best "status") "backlog").
  - rewrite bind_lift. destruct (getitem best "_id"); [|discriminate].
    unfold bind, update_one, ret.
    destruct (update_first _ _ (collection w "task")); intros [= <- <-]; by left.
  - intros [= <- <-]. by right.
Qed.

(** ** The candidate pool *)


Lemma not_nil {A : Type} (l : list A) : is_nil l = false -> l <> [].
Proof. by destruct l. Qed.


Lemma next_task_selected (user_email : option string) (w w' : world) (d : doc) :
  next_task user_email w = (Ok (Selected d), w') ->
  exists best s,
    select_best user_email (pool_of w) = Ok best
    /\ best ∈ pool_of w
    /\ score_task best = Ok s
    /\ d = returned user_email best s
    /\ auto_assign user_email best (serialize_doc best) w
       = (Ok (if caller_given user_email && eq_str (get best "status") "backlog"
              then <["assignee" := opt_str user_email]>
                     (<["status" := VStr "in_progress"]> (serialize_doc best))
              else serialize_doc best), w').
Proof.
  intros Hrun.
  destruct (next_task_cases user_email w)
    as [[_ H] | [(_ & e & _ & H) | (best & s & Hb & Hs & Hin & H)]];
    [congruence | congruence |].
  exists best, s.
  destruct (auto_assign user_email best (serialize_doc best) w) as [[bs|e] w1] eqn:Ha;
    [|congruence].
  rewrite Hrun in H. injection H as -> ->.
  unfold returned. rewrite <- caller_given_truthy.
  destruct (auto_assign_ok _ _ _ _ _ _ Ha) as [[Hc ->] | (Hc & -> & ->)]; rewrite Hc; done.
Qed.



(** ** Ranking *)



(** ** The score attached to the answer *)

(** C10: whenever [next_task] returns a task, the [score] field of that
    task is the score of the selected task as [score_task] computes it,
    without the bonuses that ranked it, also when the bonuses decided the
    selection. *)
Theorem next_task_score_attached (user_email : option string) (w w' : world) (d : doc) :
  next_task user_email w = (Ok (Selected d), w') ->
  exists best s,
    select_best user_email (pool_of w) = Ok best
    /\ score_task best = Ok s
    /\ d !! "score" = Some (VInt s)
    /\ pref_score user_email best
       = Ok (s + (if caller_given user_email
                     && bool_decide (best !! "assignee" = Some (opt_str user_email))
                  then 5 else 0)
               + (if unassigned best then 2 else 0)).
Proof.
  intros Hrun. destruct (next_task_selected _ _ _ _ Hrun) as (best & s & Hb & _ & Hs & -> & _).
  exists best, s. repeat split; [done | done | apply lookup_insert_eq |].
  rewrite pref_score_eq, Hs. reflexivity.
Qed.

Lemma next_task_score_attached_witness :
  next_task (Some "u@x") (mk_world [task_E; task_B])
  = (Ok (Selected (returned (Some "u@x") task_B 10)),
     {| colls := {[ "task" := [task_E; claimed (Some "u@x") task_B] ]};
        next_oid := 100;
        journal := [UpdateOne "task" [("_id", VOid (gen_oid 2))]
                      [("status", VStr "in_progress"); ("assignee", VStr "u@x")] 1] |})
  /\ score_task task_E = Ok 12
  /\ pref_score (Some "u@x") task_E = Ok 12
  /\ exists best s,
       select_best (Some "u@x") (pool_of (mk_world [task_E; task_B])) = Ok best
       /\ score_task best = Ok s
       /\ returned (Some "u@x") task_B 10 !! "score" = Some (VInt s)
       /\ pref_score (Some "u@x") best
          = Ok (s + (if caller_given (Some "u@x")
                        && bool_decide (best !! "assignee" = Some (opt_str (Some "u@x")))
                     then 5 else 0)
                  + (if unassigned best then 2 else 0)).
Proof.
  assert (Hrun : next_task (Some "u@x") (mk_world [task_E; task_B])
    = (Ok (Selected (returned (Some "u@x") task_B 10)),
       {| colls := {[ "task" := [task_E; claimed (Some "u@x") task_B] ]};
          next_oid := 100;
          journal := [UpdateOne "task" [("_id", VOid (gen_oid 2))]
                        [("status", VStr "in_progress"); ("assignee", VStr "u@x")] 1] |}))
    by by_eval.
  split; [exact Hrun|]. split; [by_eval|]. split; [by_eval|].
  exact (next_task_score_attached _ _ _ _ Hrun).
Defined.

Lemma filter_only {A : Type} (p : A -> bool) (pre post : list A) (x : A) :
  Forall (fun y => p y = false) pre -> Forall (fun y => p y = false) post ->
  p x = true -> List.filter p (pre ++ x :: post) = [x].
Proof.
  intros Hpre Hpost Hx. rewrite List.filter_app. simpl.
  by rewrite Hx, !filter_none.
Qed.

(** ** Claiming *)

(** C4: with distinct identities in the store, [next_task] changes the
    store exactly when a caller identity is given and the selected task is
    in the backlog.  It then sends a single update, keyed by the identity
    of that task, that sets its status to in_progress and its assignee to
    the caller: the task is rewritten in place, every other document and
    collection stays, reading the task back shows the two new values, and
    the task returned carries them too.  In every other case (no caller,
    a selection from the blocked pool, no task, an exception) the world is
    left exactly as it was. *)
Theorem next_task_store_effect (user_email : option string) (w w' : world)
    (r : res next_response) :
  ids_ok (collection w "task") ->
  next_task user_email w = (r, w') ->
  match r with
  | Ok (Selected d) =>
      exists best,
        select_best user_email (pool_of w) = Ok best
        /\ best ∈ collection w "task"
        /\ (caller_given user_email = true /\ best !! "status" = Some (VStr "backlog") ->
            exists id pre post,
              best !! "_id" = Some id
              /\ collection w "task" = (pre ++ best :: post)%list
              /\ collection w' "task" = (pre ++ claimed user_email best :: post)%list
              /\ (forall name, name <> "task" -> collection w' name = collection w name)
              /\ journal w'
                 = (journal w
                    ++ [UpdateOne "task" [("_id", id)]
                          [("status", VStr "in_progress");
                           ("assignee", opt_str user_email)] 1])%list
              /\ colls w' <> colls w
              /\ d !! "status" = Some (VStr "in_progress")
              /\ d !! "assignee" = Some (opt_str user_email)
              /\ fst (get_documents "task" [("_id", id)] w')
                 = Ok [claimed user_email best])
        /\ (~ (caller_given user_email = true /\ best !! "status" = Some (VStr "backlog")) ->
            w' = w)
  | _ => w' = w
  end
  /\ (caller_given user_email = false -> w' = w)
  /\ (with_status "backlog" w = [] -> w' = w).
Proof.
  intros Hids Hrun.
  destruct (next_task_cases user_email w)
    as [[Hp H] | [(_ & e & _ & H) | (best & s & Hb & Hs & Hin & H)]].
  { rewrite Hrun in H. by injection H as -> ->. }
  { rewrite Hrun in H. by injection H as -> ->. }
  apply pool_of_status in Hin as [Hin Hst].
  destruct (truthy_str user_email && eq_str (get best "status") "backlog") eqn:Hc.
  - apply andb_true_iff in Hc as Hc'. destruct Hc' as [Hue Hbk].
    rewrite caller_given_truthy in Hue. apply eq_str_status in Hbk.
    assert (His : is_Some (best !! "_id"))
      by (by apply (proj1 (Forall_forall _ _) (proj1 Hids))).
    destruct His as [id Hid].
    destruct (ids_ok_split _ _ _ Hids Hin Hid) as (pre & post & Hl & Hpre & Hpost).
    rewrite (auto_assign_claim _ _ _ id pre post w Hc Hid Hl Hpre), Hrun in H.
    injection H as -> ->.
    assert (Hcl : claimed user_email best !! "_id" = Some id).
    { unfold claimed. by rewrite !lookup_insert_ne. }
    split; [|split].
    + exists best. split; [done|]. split; [done|]. split; [|tauto].
      intros _. exists id, pre, post. split; [done|]. split; [done|].
      split; [apply collection_insert|].
      split; [intros name Hn; by apply collection_insert_ne|].
      split; [reflexivity|].
      split.
      { simpl. intros Heq.
        assert (Hl' : collection w "task" = (pre ++ claimed user_email best :: post)%list).
        { unfold collection. rewrite <- Heq. by rewrite lookup_insert_eq. }
        rewrite Hl in Hl'. apply app_inv_head in Hl'. injection Hl' as Hbc.
        assert (Hx : best !! "status" = Some (VStr "in_progress")).
        { rewrite Hbc. unfold claimed. rewrite lookup_insert_ne by done.
          apply lookup_insert_eq. }
        congruence. }
      split; [by rewrite lookup_insert_ne, lookup_insert_ne, lookup_insert_eq|].
      split; [by rewrite lookup_insert_ne, lookup_insert_eq|].
      unfold get_documents. simpl. f_equal. rewrite collection_insert.
      apply filter_only; [by apply not_matches_id | by apply not_matches_id |].
      rewrite matches_id. by apply bool_decide_eq_true_2.
    + congruence.
    + intros Hnb. destruct Hst as [Hst | [_ Hbl]]; [|congruence].
      assert (best ∈ with_status "backlog" w) by (by apply with_status_elem).
      rewrite Hnb in *. by apply not_elem_of_nil in H.
  - rewrite (auto_assign_skip _ _ _ _ Hc), Hrun in H. injection H as -> ->.
    split; [|done]. exists best. split; [done|]. split; [done|]. split; [|done].
    intros [Hue Hbk]. rewrite <- caller_given_truthy in Hue.
    apply eq_str_status in Hbk. rewrite Hue, Hbk in Hc. discriminate.
Qed.

Lemma next_task_store_effect_witness :
  ids_ok (collection (mk_world [task_A; task_B]) "task")
  /\ next_task (Some "u@x") (mk_world [task_A; task_B])
     = (Ok (Selected (returned (Some "u@x") task_B 10)), world_AB_claimed)
  /\ returned (Some "u@x") task_B 10 !! "status" = Some (VStr "in_progress")
  /\ returned (Some "u@x") task_B 10 !! "assignee" = Some (VStr "u@x")
  /\ colls world_AB_claimed <> colls (mk_world [task_A; task_B])
  /\ exists id,
       task_B !! "_id" = Some id
       /\ fst (get_documents "task" [("_id", id)] world_AB_claimed)
          = Ok [claimed (Some "u@x") task_B].
Proof.
  assert (Hids : ids_ok (collection (mk_world [task_A; task_B]) "task")).
  { unfold ids_ok. apply (bool_decide_unpack _). vm_compute. exact I. }
  assert (Hrun : next_task (Some "u@x") (mk_world [task_A; task_B])
                 = (Ok (Selected (returned (Some "u@x") task_B 10)), world_AB_claimed))
    by by_eval.
  assert (Hsel : select_best (Some "u@x") (pool_of (mk_world [task_A; task_B])) = Ok task_B)
    by by_eval.
  split; [exact Hids|]. split; [exact Hrun|].
  destruct (next_task_store_effect _ _ _ _ Hids Hrun) as [(best & Hb & _ & Hclaim & _) _].
  rewrite Hsel in Hb. injection Hb as <-.
  destruct Hclaim as (id & pre & post & Hid & _ & _ & _ & _ & Hne & Hs & Ha & Hread).
  { split; by_eval. }
  split; [exact Hs|]. split; [exact Ha|]. split; [exact Hne|].
  exists id. split; [exact Hid | exact Hread].
Defined.

(** ** Explicit status update *)

Lemma update_one_none (name : string) (flt asg : list (string * value)) (w : world) :
  Forall (fun x => matches flt x = false) (collection w name) ->
  update_one name flt asg w
  = (Ok 0%nat,
     {| colls := colls w; next_oid := next_oid w;
        journal := (journal w ++ [UpdateOne name flt asg 0])%list |}).
Proof.
  intros H. unfold update_one.
  assert (Hs := update_first_spec flt asg (collection w name)).
  destruct (update_first flt asg (collection w name)) as [l'|]; [|reflexivity].
  destruct Hs as (pre & d & post & Hl & Hd & _). rewrite Hl in H.
  apply Forall_app in H as [_ H]. apply Forall_cons in H as [H _]. congruence.
Qed.

Lemma update_one_some (name : string) (flt asg : list (string * value)) (w : world)
    (pre post : list doc) (d : doc) :
  collection w name = (pre ++ d :: post)%list ->
  Forall (fun x => matches flt x = false) pre -> matches flt d = true ->
  update_one name flt asg w
  = (Ok 1%nat,
     {| colls := <[name := (pre ++ apply_set asg d :: post)%list]> (colls w);
        next_oid := next_oid w;
        journal := (journal w ++ [UpdateOne name flt asg 1])%list |}).
Proof.
  intros Hl Hpre Hd. unfold update_one.
  by rewrite Hl, (update_first_app _ _ _ _ _ Hpre Hd).
Qed.

(** C6: [update_task_status] answers 400 "Invalid task id" when the id does
    not parse as an [ObjectId] (it is not 24 characters that read as pairs
    of hexadecimal digits), and the world is untouched; it answers 404
    "Task not found" when the id parses and no stored task carries it, the
    collections being left as they were (the update it sent matched
    nothing); and when a stored task carries the id it succeeds, the first
    such task has its [status] overwritten and every other field kept, and
    all other tasks and collections stay. *)
Theorem update_task_status_cases (task_id status : string) (w : world) :
  (ObjectId_of_str task_id = None ->
   update_task_status task_id status w
   = (Raise (HTTPException 400 "Invalid task id"), w))
  /\ (forall oid,
       ObjectId_of_str task_id = Some oid ->
       Forall (fun d => d !! "_id" <> Some (VOid oid)) (collection w "task") ->
       exists w',
         update_task_status task_id status w
         = (Raise (HTTPException 404 "Task not found"), w')
         /\ colls w' = colls w
         /\ journal w'
            = (journal w
               ++ [UpdateOne "task" [("_id", VOid oid)] [("status", VStr status)] 0])%list)
  /\ (forall oid pre d post,
       ObjectId_of_str task_id = Some oid ->
       collection w "task" = (pre ++ d :: post)%list ->
       Forall (fun x => x !! "_id" <> Some (VOid oid)) pre ->
       d !! "_id" = Some (VOid oid) ->
       exists w',
         update_task_status task_id status w = (Ok true, w')
         /\ collection w' "task" = (pre ++ <["status" := VStr status]> d :: post)%list
         /\ <["status" := VStr status]> d !! "status" = Some (VStr status)
         /\ (forall k, k <> "status" -> <["status" := VStr status]> d !! k = d !! k)
         /\ (forall name, name <> "task" -> collection w' name = collection w name)
         /\ journal w'
            = (journal w
               ++ [UpdateOne "task" [("_id", VOid oid)] [("status", VStr status)] 1])%list).
Proof.
  split; [|split].
  - intros H. unfold update_task_status. by rewrite H.
  - intros oid H Hnone. unfold update_task_status. rewrite H. unfold bind.
    rewrite update_one_none by (by apply not_matches_id). simpl.
    eexists. split; [reflexivity|]. split; reflexivity.
  - intros oid pre d post H Hl Hpre Hd. unfold update_task_status. rewrite H. unfold bind.
    rewrite (update_one_some _ _ _ w pre post d Hl).
    + simpl. eexists. split; [reflexivity|].
      split; [apply collection_insert|].
      split; [apply lookup_insert_eq|].
      split; [intros k Hk; by apply lookup_insert_ne|].
      split; [intros name Hn; by apply collection_insert_ne | reflexivity].
    + by apply not_matches_id.
    + rewrite matches_id. by apply bool_decide_eq_true_2.
Qed.

Lemma update_task_status_cases_witness :
  ObjectId_of_str "00000000000000000000000g" = None
  /\ update_task_status "00000000000000000000000g" "done" (mk_world [task_A; task_B])
     = (Raise (HTTPException 400 "Invalid task id"), mk_world [task_A; task_B])
  /\ (exists w',
        update_task_status "000000000000000000000007" "done" (mk_world [task_A; task_B])
        = (Raise (HTTPException 404 "Task not found"), w')
        /\ colls w' = colls (mk_world [task_A; task_B])
        /\ journal w'
           = [UpdateOne "task" [("_id", VOid (gen_oid 7))] [("status", VStr "done")] 0])
  /\ (exists w',
        update_task_status "0000 0000 0000 0000 0001" "done" (mk_world [task_A; task_B])
        = (Raise (HTTPException 404 "Task not found"), w')
        /\ colls w' = colls (mk_world [task_A; task_B])
        /\ journal w'
           = [UpdateOne "task" [("_id", VOid (Oid "00000000000000000001"))]
                [("status", VStr "done")] 0])
  /\ (exists w',
        update_task_status "000000000000000000000002" "done" (mk_world [task_A; task_B])
        = (Ok true, w')
        /\ collection w' "task" = [task_A; <["status" := VStr "done"]> task_B]
        /\ <["status" := VStr "done"]> task_B !! "status" = Some (VStr "done")
        /\ (forall k, k <> "status" -> <["status" := VStr "done"]> task_B !! k = task_B !! k)
        /\ (forall name, name <> "task" ->
            collection w' name = collection (mk_world [task_A; task_B]) name)
        /\ journal w'
           = [UpdateOne "task" [("_id", VOid (gen_oid 2))] [("status", VStr "done")] 1]).
Proof.
  assert (H0 : ObjectId_of_str "00000000000000000000000g" = None) by by_eval.
  split; [exact H0|].
  split; [exact (proj1 (update_task_status_cases _ "done" (mk_world [task_A; task_B])) H0)|].
  split; [|split].
  - apply (proj1 (proj2 (update_task_status_cases "000000000000000000000007" "done"
                           (mk_world [task_A; task_B]))) (gen_oid 7)).
    + by_eval.
    + apply (bool_decide_unpack _). vm_compute. exact I.
  - apply (proj1 (proj2 (update_task_status_cases "0000 0000 0000 0000 0001" "done"
                           (mk_world [task_A; task_B]))) (Oid "00000000000000000001")).
    + by_eval.
    + apply (bool_decide_unpack _). vm_compute. exact I.
  - apply (proj2 (proj2 (update_task_status_cases "000000000000000000000002" "done"
                           (mk_world [task_A; task_B]))) (gen_oid 2) [task_A] task_B []).
    + by_eval.
    + by_eval.
    + apply (bool_decide_unpack _). vm_compute. exact I.
    + by_eval.
Defined.

(** C7: the status invariant does not survive [update_task_status], whose
    payload takes any string: on a store that satisfies the invariant the
    call succeeds and leaves a task whose status is none of the four. *)
Theorem update_task_status_breaks_status :
  status_invariant (mk_world [task_A; task_B]) = true
  /\ update_task_status "000000000000000000000001" "garbage" (mk_world [task_A; task_B])
     = (Ok true,
        {| colls := {[ "task" := [<["status" := VStr "garbage"]> task_A; task_B] ]};
           next_oid := 100;
           journal := [UpdateOne "task" [("_id", VOid (gen_oid 1))]
                         [("status", VStr "garbage")] 1] |})
  /\ status_invariant
       {| colls := {[ "task" := [<["status" := VStr "garbage"]> task_A; task_B] ]};
          next_oid := 100;
          journal := [UpdateOne "task" [("_id", VOid (gen_oid 1))]
                        [("status", VStr "garbage")] 1] |} = false.
Proof. split; [by_eval|]. split; by_eval. Qed.

(** ** Messaging *)






Lemma stored_lookup (n : N) (d : doc) (k : string) :
  k <> "_id" -> stored n d !! k = d !! k.
Proof. intros H. unfold stored. by rewrite lookup_insert_ne. Qed.

Lemma filter_all (l : list doc) : List.filter (matches []) l = l.
Proof. induction l as [|x l IH]; simpl; [|rewrite IH]; done. Qed.

Lemma create_message_run (p : MessageCreate) (w : world) :
  create_message p w
  = match compose_reply (collection w "task") with
    | Ok reply =>
        (Ok true,
         {| colls :=
              <["message" := (collection w "message"
                              ++ [stored (next_oid w) (model_dump p);
                                  stored (N.succ (next_oid w)) (ai_msg p reply)])%list]>
                (colls w);
            next_oid := N.succ (N.succ (next_oid w));
            journal := (journal w ++ [InsertOne "message" (model_dump p);
                                      InsertOne "message" (ai_msg p reply)])%list |})
    | Raise e =>
        (Raise e,
         {| colls := <["message" := (collection w "message"
                                     ++ [stored (next_oid w) (model_dump p)])%list]>
                       (colls w);
            next_oid := N.succ (next_oid w);
            journal := (journal w ++ [InsertOne "message" (model_dump p)])%list |})
    end.
Proof.
  unfold create_message, bind, create_document, get_documents, lift, ret. simpl.
  rewrite filter_all, collection_insert_ne by done.
  destruct (compose_reply (collection w "task")) as [reply|e]; [|reflexivity].
  simpl. rewrite collection_insert. simpl.
  rewrite insert_insert_eq, <- !app_assoc. reflexivity.
Qed.






(** C9: the reply does not put "general" for every unset domain.  A task
    whose domain is [None] passes validation and is stored by
    [create_task] as it is; its bullet then reads "domain: None", the
    default of [t.get('domain', 'general')] standing in for an absent field
    only.  Three validated tasks are created in an empty store and a user
    submits a message: the stored reply has the fixed introduction, three
    bullets in descending order of score and the fixed closing sentence,
    and the first bullet shows the domain None. *)
Theorem create_message_prints_null_domain :
  Task_valid sample_task = true /\ Task_valid plan_task = true
  /\ Task_valid hire_task = true
  /\ domain plan_task = None
  /\ column "title" world_three
     = [Some (VStr "Ship"); Some (VStr "Plan"); Some (VStr "Hire")]
  /\ column "domain" world_three
     = [Some (VStr "product"); Some VNone; Some (VStr "people")]
  /\ fst (create_message user_payload world_three) = Ok true
  /\ map (fun m => (m !! "sender", m !! "text"))
       (collection (snd (create_message user_payload world_three)) "message")
     = [(Some (VStr "user"), Some (VStr "hello"));
        (Some (VStr "ai"),
         Some (VStr ("Basierend auf deinem aktuellen Backlog würde ich diese Schritte priorisieren:"
                     ++ nl ++ "- Plan (score 26) — domain: None"
                     ++ nl ++ "- Ship (score 23) — domain: product"
                     ++ nl ++ "- Hire (score 12) — domain: people"
                     ++ nl ++ nl
                     ++ "Nutze den Button 'Ich bin frei', um dir direkt den nächsten Schritt zuzuweisen.")))].
Proof.
  split; [by_eval|]. split; [by_eval|]. split; [by_eval|]. split; [reflexivity|].
  split; [by_eval|]. split; [by_eval|]. split; by_eval.
Qed.

(** * Further properties of the code *)

(** ** Serialisation *)

Lemma oid_to_str_not_oid (v : value) (o : ObjectId) : oid_to_str v <> VOid o.
Proof. by destruct v. Qed.

Lemma oid_to_str_id (v : value) : (forall o, v <> VOid o) -> oid_to_str v = v.
Proof. destruct v; try done. intros H. by destruct (H o). Qed.

Lemma serialize_doc_no_oid (d : doc) (k : string) (v : value) (o : ObjectId) :
  serialize_doc d !! k = Some v -> v <> VOid o.
Proof.
  unfold serialize_doc. case_bool_decide as Hd.
  - subst d. by rewrite lookup_empty.
  - rewrite lookup_fmap. destruct (_ !! k) as [x|]; simpl; [|done].
    intros [= <-]. apply oid_to_str_not_oid.
Qed.

Lemma serialize_doc_no_id (d : doc) : serialize_doc d !! "_id" = None.
Proof.
  unfold serialize_doc. case_bool_decide as Hd; [subst d; apply lookup_empty|].
  rewrite lookup_fmap. destruct (d !! "_id") as [i|] eqn:Hi.
  - by rewrite lookup_insert_ne, lookup_delete_eq.
  - by rewrite Hi.
Qed.


(** X2: serialising twice is serialising once. *)
Theorem serialize_doc_idempotent (d : doc) :
  serialize_doc (serialize_doc d) = serialize_doc d.
Proof.
  assert (Hid := serialize_doc_no_id d).
  assert (Hno := serialize_doc_no_oid d).
  set (r := serialize_doc d) in *. unfold serialize_doc at 1.
  case_bool_decide; [done|]. rewrite Hid.
  apply map_eq. intros k. rewrite lookup_fmap.
  destruct (r !! k) as [v|] eqn:Hv; simpl; [|done].
  f_equal. apply oid_to_str_id. intros o. by eapply Hno.
Qed.

(** ** Scores *)

(** X3: the score of a task whose priority fields are absent or integers
    in [1,10] lies between -7 and 29. *)
Theorem score_task_bounds (t : doc) :
  task_invariant t = true -> exists s, score_task t = Ok s /\ -7 <= s <= 29.
Proof.
  unfold task_invariant, field_in_range, score_task, get_or.
  intros [[Hi He]%andb_true_iff Hu]%andb_true_iff.
  destruct (t !! "impact") as [[| |i| |]|]; try discriminate;
    destruct (t !! "effort") as [[| |e| |]|]; try discriminate;
    destruct (t !! "urgency") as [[| |u| |]|]; try discriminate;
    simpl; eexists; (split; [reflexivity|]);
    repeat match goal with
           | H : _ && _ = true |- _ => apply andb_true_iff in H as [? ?]
           end; lia.
Qed.

Lemma score_task_bounds_witness :
  task_invariant task_C = true /\ exists s, score_task task_C = Ok s /\ -7 <= s <= 29.
Proof. split; [by_eval|]. apply score_task_bounds. by_eval. Defined.

(** ** Tasks with a priority that is [None] *)

(** [int(None)] raises whatever the other fields hold. *)
Lemma null_priority_raise (t : doc) :
  null_priority t = true -> exists e, score_task t = Raise e.
Proof.
  unfold null_priority, score_task, get_or.
  intros [[Hn | Hn]%orb_true_iff | Hn]%orb_true_iff;
    apply bool_decide_eq_true in Hn; rewrite Hn; simpl.
  - eauto.
  - destruct (py_int _); simpl; eauto.
  - destruct (py_int _); simpl; [destruct (py_int _)|]; simpl; eauto.
Qed.

Lemma null_priority_serialize (t : doc) :
  null_priority t = true -> null_priority (serialize_doc t) = true.
Proof.
  unfold null_priority. rewrite !serialize_doc_lookup by done.
  intros [[Hn | Hn]%orb_true_iff | Hn]%orb_true_iff;
    apply bool_decide_eq_true in Hn; rewrite Hn; simpl;
    by rewrite ?orb_true_r.
Qed.

Lemma keyed_raise {A : Type} (key : A -> res Z) (l : list A) :
  Exists (fun x => exists e, key x = Raise e) l -> exists e, keyed key l = Raise e.
Proof.
  induction 1 as [x l [e He]|x l _ [e IH]]; simpl.
  - rewrite He. simpl. eauto.
  - destruct (key x) as [k|e']; simpl; [rewrite IH|]; simpl; eauto.
Qed.

Lemma sorted_desc_raise {A : Type} (key : A -> res Z) (l : list A) :
  Exists (fun x => exists e, key x = Raise e) l -> exists e, sorted_desc key l = Raise e.
Proof.
  intros H. destruct (keyed_raise key l H) as [e He].
  unfold sorted_desc. rewrite He. simpl. eauto.
Qed.

Lemma map_res_raise {A B : Type} (f : A -> res B) (l : list A) :
  Exists (fun x => exists e, f x = Raise e) l -> exists e, map_res f l = Raise e.
Proof.
  induction 1 as [x l [e He]|x l _ [e IH]]; simpl.
  - rewrite He. simpl. eauto.
  - destruct (f x) as [k|e']; simpl; [rewrite IH|]; simpl; eauto.
Qed.

(** X4: a priority field that is present but [None] makes [score_task]
    raise: the default only stands in for an absent field. *)
Theorem score_task_null_field (t : doc) (k : string) :
  k ∈ ["impact"; "effort"; "urgency"] -> t !! k = Some VNone ->
  exists e, score_task t = Raise e.
Proof.
  intros Hk Hn. unfold score_task, get_or.
  repeat (apply elem_of_cons in Hk as [-> | Hk]); [| | | by apply not_elem_of_nil in Hk].
  - rewrite Hn. simpl. eauto.
  - rewrite Hn. simpl. destruct (py_int _); simpl; eauto.
  - rewrite Hn. simpl. destruct (py_int _); simpl; [destruct (py_int _)|]; simpl; eauto.
Qed.

Lemma score_task_null_field_witness :
  exists e, score_task (<["effort" := VNone]> task_A) = Raise e.
Proof.
  apply (score_task_null_field _ "effort"); [set_solver | by_eval].
Defined.

(** X5: if one task of the candidate pool has an impact, effort or
    urgency that is present but [None], [next_task] raises for every caller
    and leaves the world as it was: no task is claimed. *)
Theorem next_task_null_priority (user_email : option string) (w : world) :
  Exists (fun t => null_priority t = true) (pool_of w) ->
  exists e, next_task user_email w = (Raise e, w).
Proof.
  intros H. rewrite next_task_unfold.
  assert (Hn : is_nil (pool_of w) = false).
  { destruct (pool_of w); [by apply Exists_nil in H | done]. }
  rewrite Hn.
  destruct (sorted_desc_raise (pref_score user_email) (pool_of w)) as [e He].
  { eapply Exists_impl; [exact H|]. intros t Ht. simpl.
    destruct (null_priority_raise _ Ht) as [e He]. exists e.
    unfold pref_score. by rewrite He. }
  unfold select_best. rewrite He. simpl. eauto.
Qed.

Lemma next_task_null_priority_witness :
  exists e,
    next_task (Some "u@x") (mk_world [task_A; <["impact" := VNone]> task_B])
    = (Raise e, mk_world [task_A; <["impact" := VNone]> task_B]).
Proof.
  apply next_task_null_priority. apply (bool_decide_unpack _). vm_compute. exact I.
Defined.

(** ** Listing *)

Lemma list_tasks_unfold (status : option string) (w : world) :
  list_tasks status w
  = (let? enriched := map_res enrich (listed status w) in
     sorted_desc score_key enriched, w).
Proof.
  unfold list_tasks, listed, bind, get_documents, lift, ret, with_status.
  destruct status as [s|]; simpl.
  - case_bool_decide; simpl.
    + rewrite filter_all. destruct (map_res enrich _); simpl; [|done].
      by destruct (sorted_desc score_key _).
    + destruct (map_res enrich _); simpl; [|done].
      by destruct (sorted_desc score_key _).
  - rewrite filter_all. destruct (map_res enrich _); simpl; [|done].
    by destruct (sorted_desc score_key _).
Qed.

Lemma map_res_ok {A B : Type} (f : A -> res B) (l : list A) (ys : list B) :
  map_res f l = Ok ys -> Forall2 (fun x y => f x = Ok y) l ys.
Proof.
  revert ys. induction l as [|x l IH]; intros ys H; simpl in H.
  - injection H as <-. constructor.
  - apply res_bind_ok in H as (y & Hy & H). apply res_bind_ok in H as (ys' & Hys & H).
    injection H as <-. constructor; [done | by apply IH].
Qed.

Lemma enrich_ok (d x : doc) :
  enrich d = Ok x ->
  exists s, score_task (serialize_doc d) = Ok s /\ x = item_of d s.
Proof.
  unfold enrich. intros H. apply res_bind_ok in H as (s & Hs & H).
  injection H as <-. eauto.
Qed.

Lemma score_key_item (t : doc) (s : Z) : score_key (item_of t s) = Ok s.
Proof. unfold score_key, get_or, item_of. by rewrite lookup_insert_eq. Qed.

(** X6: if one of the listed tasks has an impact, effort or urgency that
    is present but [None], [list_tasks] raises, returns no partial list and
    leaves the world as it was. *)
Theorem list_tasks_null_priority (status : option string) (w : world) :
  Exists (fun t => null_priority t = true) (listed status w) ->
  exists e, list_tasks status w = (Raise e, w).
Proof.
  intros H. rewrite list_tasks_unfold.
  destruct (map_res_raise enrich (listed status w)) as [e ->]; [|simpl; eauto].
  eapply Exists_impl; [exact H|]. intros t Ht. simpl.
  destruct (null_priority_raise _ (null_priority_serialize _ Ht)) as [e He].
  exists e. unfold enrich. by rewrite He.
Qed.

Lemma list_tasks_null_priority_witness :
  exists e,
    list_tasks (Some "backlog") (mk_world [task_A; <["impact" := VNone]> task_B])
    = (Raise e, mk_world [task_A; <["impact" := VNone]> task_B]).
Proof.
  apply list_tasks_null_priority. apply (bool_decide_unpack _). vm_compute. exact I.
Defined.

(** X7: whenever [list_tasks] answers, the world is unchanged, there is
    one item per listed task, no item has an [_id], every item carries an
    integer [score], and the items are in descending order of it. *)
Theorem list_tasks_sorted (status : option string) (w w' : world) (items : list doc) :
  list_tasks status w = (Ok items, w') ->
  w' = w
  /\ length items = length (listed status w)
  /\ Forall (fun x => x !! "_id" = None /\ exists s, x !! "score" = Some (VInt s)) items
  /\ StronglySorted
       (fun a b => exists ka kb,
          a !! "score" = Some (VInt ka) /\ b !! "score" = Some (VInt kb) /\ kb <= ka)
       items.
Proof.
  rewrite list_tasks_unfold. intros [= H <-]. split; [done|].
  apply res_bind_ok in H as (enriched & He & Hs).
  apply map_res_ok in He. destruct (sorted_desc_spec _ _ _ Hs) as [Hperm Hsrt].
  assert (Hall : Forall (fun x => x !! "_id" = None /\ exists s, x !! "score" = Some (VInt s)
                                  /\ score_key x = Ok s) items).
  { rewrite Hperm. clear Hs Hperm Hsrt.
    induction He as [|d x ds xs Hx _ IH]; constructor; [|exact IH].
    apply enrich_ok in Hx as (s & _ & ->). split.
    - unfold item_of. rewrite lookup_insert_ne by done. apply serialize_doc_no_id.
    - exists s. split; [apply lookup_insert_eq | apply score_key_item]. }
  split; [|split].
  - rewrite (Permutation_length Hperm). symmetry. by eapply Forall2_length.
  - eapply Forall_impl; [exact Hall|]. intros x [? (s & ? & _)]. eauto.
  - clear Hs Hperm He. induction Hsrt as [|a l Hs IH Ha]; [constructor|].
    apply Forall_cons in Hall as [(_ & sa & Hsa & Hka) Hall].
    constructor; [by apply IH|].
    apply Forall_forall. intros b Hb.
    destruct (proj1 (Forall_forall _ _) Ha b Hb) as (ka & kb & Ea & Eb & Hle).
    destruct (proj1 (Forall_forall _ _) Hall b Hb) as (_ & sb & Hsb & Hkb).
    exists sa, sb. repeat split; [done | done | congruence].
Qed.

Lemma list_tasks_sorted_witness :
  exists items,
    list_tasks None (mk_world [task_A; task_C; task_F]) = (Ok items, mk_world [task_A; task_C; task_F])
    /\ length items = 3%nat
    /\ StronglySorted
         (fun a b => exists ka kb,
            a !! "score" = Some (VInt ka) /\ b !! "score" = Some (VInt kb) /\ kb <= ka)
         items.
Proof.
  exists [item_of task_C 26; item_of task_F 20; item_of task_A 10].
  assert (Hrun : list_tasks None (mk_world [task_A; task_C; task_F])
                 = (Ok [item_of task_C 26; item_of task_F 20; item_of task_A 10],
                    mk_world [task_A; task_C; task_F])) by by_eval.
  split; [exact Hrun|].
  destruct (list_tasks_sorted _ _ _ _ Hrun) as (_ & Hlen & _ & Hs).
  split; [exact Hlen | exact Hs].
Defined.

(** X8: with a non-empty status argument [list_tasks] lists exactly as
    many items as there are tasks of that status, each with that status;
    with no argument or an empty one it lists every task. *)
Theorem list_tasks_filter (status : option string) (w w' : world) (items : list doc) :
  list_tasks status w = (Ok items, w') ->
  (forall s, status = Some s -> s <> "" ->
     length items = length (with_status s w)
     /\ Forall (fun x => x !! "status" = Some (VStr s)) items)
  /\ (status = None \/ status = Some "" -> length items = length (collection w "task")).
Proof.
  rewrite list_tasks_unfold. intros [= H <-].
  apply res_bind_ok in H as (enriched & He & Hs).
  apply map_res_ok in He. destruct (sorted_desc_spec _ _ _ Hs) as [Hperm _].
  assert (Hlen : length items = length (listed status w)).
  { rewrite (Permutation_length Hperm). symmetry. by eapply Forall2_length. }
  split.
  - intros s -> Hne. unfold listed in *. rewrite bool_decide_eq_false_2 in * by done.
    split; [exact Hlen|]. rewrite Hperm. clear Hs Hperm Hlen.
    assert (Hst : Forall (fun d => d !! "status" = Some (VStr s)) (with_status s w)).
    { apply Forall_forall. intros d Hd. by apply with_status_elem in Hd as [_ ?]. }
    induction He as [|d x ds xs Hx _ IH]; [constructor|].
    apply Forall_cons in Hst as [Hd Hst]. constructor; [|by apply IH].
    apply enrich_ok in Hx as (k & _ & ->). unfold item_of.
    rewrite lookup_insert_ne by done. rewrite serialize_doc_lookup by done.
    by rewrite Hd.
  - intros [-> | ->]; exact Hlen.
Qed.

Lemma list_tasks_filter_witness :
  length [item_of task_C 26] = length (with_status "blocked" (mk_world [task_A; task_C; task_F]))
  /\ Forall (fun x => x !! "status" = Some (VStr "blocked")) [item_of task_C 26].
Proof.
  assert (Hrun : list_tasks (Some "blocked") (mk_world [task_A; task_C; task_F])
                 = (Ok [item_of task_C 26], mk_world [task_A; task_C; task_F])) by by_eval.
  exact (proj1 (list_tasks_filter _ _ _ _ Hrun) "blocked" eq_refl ltac:(discriminate)).
Defined.

(** ** Ranking of the list and of the reply *)










(** The reply for four stored tasks, A of score 10, E of 12, F of 20 and
    C of 26. *)
Example reply_three_tasks :
  compose_reply [task_A; task_E; task_F; task_C]
  = Ok ("Basierend auf deinem aktuellen Backlog würde ich diese Schritte priorisieren:" ++ nl
        ++ "- C (score 26) — domain: general" ++ nl
        ++ "- F (score 20) — domain: general" ++ nl
        ++ "- E (score 12) — domain: general" ++ nl ++ nl
        ++ "Nutze den Button 'Ich bin frei', um dir direkt den nächsten Schritt zuzuweisen.").
Proof. by_eval. Qed.

(** ** Messages when a task has a priority that is [None] *)

(** X11: if one stored task, whatever its rank, has an impact, effort or
    urgency that is present but [None], [create_message] raises after it
    has stored the submitted message: that message is kept, no reply is
    stored, nothing else changes. *)
Theorem create_message_null_priority (p : MessageCreate) (w : world) :
  Exists (fun t => null_priority t = true) (collection w "task") ->
  exists e w',
    create_message p w = (Raise e, w')
    /\ collection w' "message"
       = (collection w "message" ++ [stored (next_oid w) (model_dump p)])%list
    /\ (forall name, name <> "message" -> collection w' name = collection w name)
    /\ journal w' = (journal w ++ [InsertOne "message" (model_dump p)])%list.
Proof.
  intros H.
  destruct (sorted_desc_raise score_task (collection w "task")) as [e He].
  { eapply Exists_impl; [exact H|]. intros t Ht. by apply null_priority_raise. }
  exists e. eexists. rewrite create_message_run. unfold compose_reply. rewrite He. simpl.
  split; [reflexivity|]. split; [apply collection_insert|].
  split; [intros name Hn; by apply collection_insert_ne | reflexivity].
Qed.

Lemma create_message_null_priority_witness :
  exists e w',
    create_message sample_payload (mk_world [task_A; <["urgency" := VNone]> task_B])
    = (Raise e, w')
    /\ collection w' "message" = [stored 100 (model_dump sample_payload)]
    /\ (forall name, name <> "message" ->
        collection w' name
        = collection (mk_world [task_A; <["urgency" := VNone]> task_B]) name)
    /\ journal w' = [InsertOne "message" (model_dump sample_payload)].
Proof.
  apply (create_message_null_priority sample_payload
           (mk_world [task_A; <["urgency" := VNone]> task_B])).
  apply (bool_decide_unpack _). vm_compute. exact I.
Defined.

(** ** Creating tasks *)

Lemma create_task_run (p : Task) (w : world) :
  create_task p w
  = (Ok (py_str (VOid (gen_oid (next_oid w)))),
     {| colls := <["task" := (collection w "task"
                              ++ [stored (next_oid w) (task_dump p)])%list]> (colls w);
        next_oid := N.succ (next_oid w);
        journal := (journal w ++ [InsertOne "task" (task_dump p)])%list |}).
Proof. reflexivity. Qed.

Lemma Task_valid_status (p : Task) :
  Task_valid p = true -> valid_status (stored 0 (task_dump p)) = true.
Proof.
  unfold Task_valid. intros [_ Hs%bool_decide_eq_true]%andb_true_iff.
  unfold valid_status. rewrite stored_lookup by done. unfold task_dump.
  assert (Hl : ({[ "title" := VStr (title p); "description" := opt_str (description p);
                  "domain" := opt_str (domain p); "impact" := VInt (impact p);
                  "effort" := VInt (effort p); "urgency" := VInt (urgency p);
                  "status" := VStr (status p); "assignee" := opt_str (assignee p) ]}
                 : doc) !! "status" = Some (VStr (status p))) by (by simplify_map_eq).
  rewrite Hl. unfold statuses in Hs.
  repeat (apply elem_of_cons in Hs as [-> | Hs]); try reflexivity.
  by apply not_elem_of_nil in Hs.
Qed.

Lemma task_dump_lookups (p : Task) :
  task_dump p !! "impact" = Some (VInt (impact p))
  /\ task_dump p !! "effort" = Some (VInt (effort p))
  /\ task_dump p !! "urgency" = Some (VInt (urgency p))
  /\ task_dump p !! "status" = Some (VStr (status p))
  /\ task_dump p !! "assignee" = Some (opt_str (assignee p))
  /\ task_dump p !! "_id" = None.
Proof. unfold task_dump. repeat split; by simplify_map_eq. Qed.

(** X12: [create_task] on a validated payload appends one document to the
    task collection and touches no other; it answers with the text of the
    identity under which the document is stored; the stored task honours
    the priority bounds and the status enumeration, and its score is
    impact*2 + urgency - effort, between -7 and 29. *)
Theorem create_task_stores (p : Task) (w : world) :
  Task_valid p = true ->
  exists w',
    create_task p w = (Ok (py_str (VOid (gen_oid (next_oid w)))), w')
    /\ collection w' "task"
       = (collection w "task" ++ [stored (next_oid w) (task_dump p)])%list
    /\ (forall name, name <> "task" -> collection w' name = collection w name)
    /\ stored (next_oid w) (task_dump p) !! "_id" = Some (VOid (gen_oid (next_oid w)))
    /\ task_invariant (stored (next_oid w) (task_dump p)) = true
    /\ valid_status (stored (next_oid w) (task_dump p)) = true
    /\ score_task (stored (next_oid w) (task_dump p))
       = Ok (impact p * 2 + urgency p - effort p)
    /\ -7 <= impact p * 2 + urgency p - effort p <= 29.
Proof.
  intros Hv. eexists. rewrite create_task_run. split; [reflexivity|].
  split; [apply collection_insert|].
  split; [intros name Hn; by apply collection_insert_ne|].
  split; [apply lookup_insert_eq|].
  destruct (task_dump_lookups p) as (Hi & He & Hu & Hs & _).
  assert (Hr : (1 <= impact p <= 10) /\ (1 <= effort p <= 10) /\ (1 <= urgency p <= 10)).
  { unfold Task_valid in Hv.
    repeat match goal with
           | H : _ && _ = true |- _ => apply andb_true_iff in H as [H ?]
           end. lia. }
  split; [|split; [|split]].
  - unfold task_invariant, field_in_range. rewrite !stored_lookup by done.
    rewrite Hi, He, Hu.
    repeat (apply andb_true_iff; split); lia.
  - unfold valid_status. rewrite !stored_lookup by done.
    assert (H0 := Task_valid_status p Hv). unfold valid_status in H0.
    by rewrite !stored_lookup in H0 by done.
  - unfold score_task, get_or. rewrite !stored_lookup by done. by rewrite Hi, He, Hu.
  - lia.
Qed.

Lemma create_task_stores_witness :
  Task_valid sample_task = true
  /\ exists w',
       create_task sample_task (mk_world [task_A])
       = (Ok "000000000000000000000064", w')
       /\ collection w' "task" = [task_A; stored 100 (task_dump sample_task)]
       /\ score_task (stored 100 (task_dump sample_task)) = Ok 23.
Proof.
  assert (Hv : Task_valid sample_task = true) by by_eval.
  split; [exact Hv|].
  destruct (create_task_stores sample_task (mk_world [task_A]) Hv)
    as (w' & Hrun & Hl & _ & _ & _ & _ & Hs & _).
  exists w'. split; [exact Hrun|]. split; [exact Hl | exact Hs].
Defined.

(** ** Invariants of the store *)

Lemma update_first_Forall (P : doc -> Prop) (flt asg : list (string * value))
    (l l' : list doc) :
  (forall d, P d -> P (apply_set asg d)) ->
  Forall P l -> update_first flt asg l = Some l' -> Forall P l'.
Proof.
  intros Hp Hl Hu. assert (Hs := update_first_spec flt asg l). rewrite Hu in Hs.
  destruct Hs as (pre & d & post & -> & _ & _ & ->).
  apply Forall_app in Hl as [Hpre Hl]. apply Forall_cons in Hl as [Hd Hpost].
  apply Forall_app. split; [done|]. constructor; [by apply Hp | done].
Qed.

Lemma update_one_Forall (P : doc -> Prop) (flt asg : list (string * value))
    (w w' : world) (r : res nat) :
  (forall d, P d -> P (apply_set asg d)) ->
  Forall P (collection w "task") -> update_one "task" flt asg w = (r, w') ->
  Forall P (collection w' "task").
Proof.
  intros Hp Hl. unfold update_one.
  destruct (update_first flt asg (collection w "task")) as [l'|] eqn:Hu; intros [= _ <-].
  - rewrite collection_insert. by eapply update_first_Forall.
  - exact Hl.
Qed.

Lemma update_one_other (flt asg : list (string * value)) (w w' : world) (r : res nat)
    (name : string) :
  name <> "task" -> update_one "task" flt asg w = (r, w') ->
  collection w' name = collection w name.
Proof.
  intros Hn. unfold update_one.
  destruct (update_first flt asg (collection w "task")); intros [= _ <-]; [|done].
  by apply collection_insert_ne.
Qed.

(** What [next_task] does to the world: nothing, or one claiming update. *)
Lemma next_task_world (user_email : option string) (w w' : world) (r : res next_response) :
  next_task user_email w = (r, w') ->
  w' = w
  \/ exists id n,
       update_one "task" [("_id", id)]
         [("status", VStr "in_progress"); ("assignee", opt_str user_email)] w
       = (Ok n, w').
Proof.
  rewrite next_task_unfold. destruct (is_nil (pool_of w)); [intros [= _ <-]; by left|].
  destruct (select_best user_email (pool_of w)) as [best|e]; [|intros [= _ <-]; by left].
  unfold auto_assign.
  destruct (truthy_str user_email && eq_str (get best "status") "backlog").
  - rewrite bind_lift. unfold getitem.
    destruct (best !! "_id") as [id|]; [|intros [= _ <-]; by left].
    unfold bind.
    destruct (update_one "task" [("_id", id)] _ w) as [[n|e] w1] eqn:Hu.
    + unfold ret. intros H. right. exists id, n.
      destruct (score_task best); injection H as _ <-; done.
    + unfold update_one in Hu. destruct (update_first _ _ _); discriminate.
  - unfold ret. intros H. left. destruct (score_task best); by injection H as _ <-.
Qed.

Lemma status_invariant_Forall (w : world) :
  status_invariant w = true <-> Forall (fun d => valid_status d = true) (collection w "task").
Proof.
  unfold status_invariant. rewrite forallb_forall, Forall_forall.
  split; intros H d Hd; apply H; by apply list_elem_of_In.
Qed.

(** X13: if every stored task has one of the four statuses, this still
    holds after [next_task], after [create_task] on a validated payload,
    after [create_message], and after [update_task_status] with one of the
    four statuses. *)
Theorem status_invariant_kept (w w' : world) :
  status_invariant w = true ->
  (forall user_email r, next_task user_email w = (r, w') -> status_invariant w' = true)
  /\ (forall p r, Task_valid p = true -> create_task p w = (r, w') ->
      status_invariant w' = true)
  /\ (forall p r, create_message p w = (r, w') -> status_invariant w' = true)
  /\ (forall task_id s r, s ∈ statuses -> update_task_status task_id s w = (r, w') ->
      status_invariant w' = true).
Proof.
  intros Hinv. apply status_invariant_Forall in Hinv. repeat split.
  - intros ue r Hrun. apply status_invariant_Forall.
    destruct (next_task_world _ _ _ _ Hrun) as [-> | (id & n & Hu)]; [done|].
    eapply update_one_Forall; [|exact Hinv|exact Hu].
    intros d _. unfold apply_set, valid_status. simpl.
    by rewrite lookup_insert_ne, lookup_insert_eq.
  - intros p r Hv. rewrite create_task_run. intros [= _ <-].
    apply status_invariant_Forall. rewrite collection_insert.
    apply Forall_app. split; [done|]. constructor; [|constructor].
    assert (H0 := Task_valid_status p Hv). unfold valid_status in *.
    by rewrite !stored_lookup in * by done.
  - intros p r. rewrite create_message_run.
    destruct (compose_reply (collection w "task")); intros [= _ <-];
      apply status_invariant_Forall; by rewrite collection_insert_ne.
  - intros task_id s r Hs. unfold update_task_status.
    destruct (ObjectId_of_str task_id) as [oid|]; [|intros [= _ <-]; by apply status_invariant_Forall].
    unfold bind.
    destruct (update_one "task" [("_id", VOid oid)] [("status", VStr s)] w)
      as [[n|e] w1] eqn:Hu.
    + intros H. assert (w' = w1) as -> by (destruct (n =? 0)%nat; by injection H).
      apply status_invariant_Forall.
      eapply update_one_Forall; [|exact Hinv|exact Hu].
      intros d _. unfold apply_set, valid_status. simpl. rewrite lookup_insert_eq.
      unfold statuses in Hs.
      repeat (apply elem_of_cons in Hs as [-> | Hs]); try reflexivity.
      by apply not_elem_of_nil in Hs.
    + unfold update_one in Hu. destruct (update_first _ _ _); discriminate.
Qed.

Lemma status_invariant_kept_witness :
  status_invariant (mk_world [task_A; task_B]) = true
  /\ status_invariant world_AB_claimed = true.
Proof.
  assert (Hinv : status_invariant (mk_world [task_A; task_B]) = true) by by_eval.
  split; [exact Hinv|].
  assert (Hrun : next_task (Some "u@x") (mk_world [task_A; task_B])
                 = (Ok (Selected (returned (Some "u@x") task_B 10)), world_AB_claimed))
    by by_eval.
  exact (proj1 (status_invariant_kept _ world_AB_claimed Hinv) _ _ Hrun).
Defined.

(** ** What the task handlers leave alone *)

Lemma update_first_column (k : string) (flt asg : list (string * value)) (l l' : list doc) :
  (forall d, apply_set asg d !! k = d !! k) ->
  update_first flt asg l = Some l' ->
  map (fun d => d !! k) l' = map (fun d => d !! k) l.
Proof.
  intros Hk Hu. assert (Hs := update_first_spec flt asg l). rewrite Hu in Hs.
  destruct Hs as (pre & d & post & -> & _ & _ & ->).
  rewrite !map_app. simpl. by rewrite Hk.
Qed.

Lemma update_one_column (k : string) (flt asg : list (string * value)) (w w' : world)
    (r : res nat) :
  (forall d, apply_set asg d !! k = d !! k) ->
  update_one "task" flt asg w = (r, w') -> column k w' = column k w.
Proof.
  intros Hk. unfold update_one, column.
  destruct (update_first flt asg (collection w "task")) as [l'|] eqn:Hu; intros [= _ <-].
  - rewrite collection_insert. by eapply update_first_column.
  - done.
Qed.

Lemma update_task_status_world (task_id s : string) (w w' : world) (r : res bool) :
  update_task_status task_id s w = (r, w') ->
  w' = w
  \/ exists oid n,
       ObjectId_of_str task_id = Some oid
       /\ update_one "task" [("_id", VOid oid)] [("status", VStr s)] w = (Ok n, w')
       /\ r = if (n =? 0)%nat then Raise (HTTPException 404 "Task not found") else Ok true.
Proof.
  unfold update_task_status.
  destruct (ObjectId_of_str task_id) as [oid|]; [|intros [= _ <-]; by left].
  unfold bind.
  destruct (update_one "task" [("_id", VOid oid)] [("status", VStr s)] w)
    as [[n|e] w1] eqn:Hu.
  - intros H. right. exists oid, n. split; [done|].
    destruct (n =? 0)%nat; injection H as <- <-; done.
  - unfold update_one in Hu. destruct (update_first _ _ _); discriminate.
Qed.

(** X14: [next_task] changes no field of any task other than [status]
    and [assignee], and [update_task_status] none other than [status];
    neither adds, removes or reorders tasks; [create_message] leaves the
    task collection as it is; [create_task] only appends to it. *)
Theorem task_fields_kept (w w' : world) (k : string) :
  (forall user_email r, next_task user_email w = (r, w') ->
     k <> "status" -> k <> "assignee" -> column k w' = column k w)
  /\ (forall task_id s r, update_task_status task_id s w = (r, w') ->
      k <> "status" -> column k w' = column k w)
  /\ (forall p r, create_message p w = (r, w') ->
      collection w' "task" = collection w "task")
  /\ (forall p r, create_task p w = (r, w') ->
      exists d, collection w' "task" = (collection w "task" ++ [d])%list).
Proof.
  repeat split.
  - intros ue r Hrun H1 H2.
    destruct (next_task_world _ _ _ _ Hrun) as [-> | (id & n & Hu)]; [done|].
    eapply update_one_column; [|exact Hu].
    intros d. unfold apply_set. simpl. by rewrite !lookup_insert_ne.
  - intros task_id s r Hrun H1.
    destruct (update_task_status_world _ _ _ _ _ Hrun) as [-> | (oid & n & _ & Hu & _)];
      [done|].
    eapply update_one_column; [|exact Hu].
    intros d. unfold apply_set. simpl. by rewrite !lookup_insert_ne.
  - intros p r. rewrite create_message_run.
    destruct (compose_reply (collection w "task")); intros [= _ <-];
      by rewrite collection_insert_ne.
  - intros p r. rewrite create_task_run. intros [= _ <-].
    eexists. apply collection_insert.
Qed.

(** ** Claims, one task at a time *)

Lemma filter_status_claimed (user_email : option string) (s : string) (pre post : list doc)
    (best : doc) :
  s <> "in_progress" ->
  List.filter (matches [("status", VStr s)]) (pre ++ claimed user_email best :: post)
  = (List.filter (matches [("status", VStr s)]) pre
     ++ List.filter (matches [("status", VStr s)]) post)%list.
Proof.
  intros Hs. rewrite List.filter_app. cbn [List.filter].
  destruct (matches [("status", VStr s)] (claimed user_email best)) eqn:Hm; [|done].
  apply matches_status in Hm. unfold claimed in Hm.
  rewrite lookup_insert_ne in Hm by done. rewrite lookup_insert_eq in Hm. congruence.
Qed.

(** X15: with distinct identities in the store, a claim by [next_task]
    takes exactly one task out of the backlog and leaves the blocked tasks
    as they are; in the store as the claim leaves it, the claimed task is
    not in the candidate pool, and identities are still distinct. *)
Theorem claim_leaves_pool (user_email : option string) (w w' : world) (d : doc) :
  ids_ok (collection w "task") ->
  caller_given user_email = true ->
  with_status "backlog" w <> [] ->
  next_task user_email w = (Ok (Selected d), w') ->
  exists best id,
    select_best user_email (pool_of w) = Ok best
    /\ best !! "_id" = Some id
    /\ S (length (with_status "backlog" w')) = length (with_status "backlog" w)
    /\ with_status "blocked" w' = with_status "blocked" w
    /\ (forall t, t ∈ pool_of w' -> t !! "_id" <> Some id)
    /\ ids_ok (collection w' "task").
Proof.
  intros Hids Hue Hne Hrun.
  destruct (next_task_cases user_email w)
    as [[_ H] | [(_ & e & _ & H) | (best & s & Hb & Hs & Hin & H)]];
    [congruence | congruence |].
  apply pool_of_status in Hin as [Hin Hst].
  destruct Hst as [Hst | [Hnil _]]; [|done].
  assert (Hc : truthy_str user_email && eq_str (get best "status") "backlog" = true).
  { rewrite caller_given_truthy, Hue. simpl. by apply eq_str_status. }
  assert (His : is_Some (best !! "_id"))
    by (by apply (proj1 (Forall_forall _ _) (proj1 Hids))).
  destruct His as [id Hid].
  destruct (ids_ok_split _ _ _ Hids Hin Hid) as (pre & post & Hl & Hpre & Hpost).
  rewrite (auto_assign_claim _ _ _ id pre post w Hc Hid Hl Hpre), Hrun in H.
  injection H as _ ->.
  exists best, id. split; [done|]. split; [done|].
  unfold pool_of, with_status. rewrite collection_insert, Hl.
  fold (claimed user_email best).
  rewrite !filter_status_claimed by done. rewrite !List.filter_app. cbn [List.filter].
  assert (Hbm : matches [("status", VStr "backlog")] best = true) by (by apply matches_status).
  assert (Hkm : matches [("status", VStr "blocked")] best = false).
  { destruct (matches [("status", VStr "blocked")] best) eqn:Hm; [|done].
    apply matches_status in Hm. rewrite Hst in Hm. discriminate. }
  rewrite Hbm, Hkm. split; [rewrite !length_app; simpl; lia|]. split; [done|].
  split.
  - intros t Ht.
    assert (Ht' : t ∈ (pre ++ post)%list).
    { destruct (is_nil _); apply list_elem_of_In in Ht; apply list_elem_of_In;
        rewrite <- List.filter_app in Ht; by apply filter_In in Ht as [? _]. }
    apply elem_of_app in Ht' as [Ht' | Ht'].
    + by apply (proj1 (Forall_forall _ _) Hpre).
    + by apply (proj1 (Forall_forall _ _) Hpost).
  - destruct Hids as [Hsome Hnd]. rewrite Hl in Hsome, Hnd.
    assert (Hcid : claimed user_email best !! "_id" = best !! "_id").
    { unfold claimed. by rewrite !lookup_insert_ne. }
    split.
    + apply Forall_app in Hsome as [H1 H2]. apply Forall_cons in H2 as [H2 H3].
      apply Forall_app. split; [done|]. constructor; [by rewrite Hcid | done].
    + rewrite map_app in *. simpl in *. by rewrite Hcid.
Qed.

Lemma sample_AB_ids_ok : ids_ok (collection (mk_world [task_A; task_B]) "task").
Proof. unfold ids_ok. apply (bool_decide_unpack _). vm_compute. exact I. Qed.

Lemma claim_leaves_pool_witness :
  exists best id,
    select_best (Some "u@x") (pool_of (mk_world [task_A; task_B])) = Ok best
    /\ best !! "_id" = Some id
    /\ S (length (with_status "backlog" world_AB_claimed))
       = length (with_status "backlog" (mk_world [task_A; task_B]))
    /\ with_status "blocked" world_AB_claimed
       = with_status "blocked" (mk_world [task_A; task_B])
    /\ (forall t, t ∈ pool_of world_AB_claimed -> t !! "_id" <> Some id)
    /\ ids_ok (collection world_AB_claimed "task").
Proof.
  apply (claim_leaves_pool (Some "u@x") (mk_world [task_A; task_B]) world_AB_claimed
           (returned (Some "u@x") task_B 10)).
  - exact sample_AB_ids_ok.
  - reflexivity.
  - apply not_nil. vm_compute. reflexivity.
  - by_eval.
Defined.

(** X16: when there is no backlog task, whatever [next_task] returns is a
    blocked task, returned with status blocked and otherwise as
    [list_tasks] shows it, and the world is unchanged even with a caller
    given: blocked tasks are never assigned. *)
Theorem blocked_fallback_untouched (user_email : option string) (w w' : world) (d : doc) :
  with_status "backlog" w = [] ->
  next_task user_email w = (Ok (Selected d), w') ->
  w' = w
  /\ d !! "status" = Some (VStr "blocked")
  /\ exists best s,
       best ∈ with_status "blocked" w
       /\ score_task best = Ok s
       /\ d = item_of best s.
Proof.
  intros Hnil Hrun.
  destruct (next_task_cases user_email w)
    as [[_ H] | [(_ & e & _ & H) | (best & s & Hb & Hs & Hin & H)]];
    [congruence | congruence |].
  assert (Hp : pool_of w = with_status "blocked" w) by (unfold pool_of; by rewrite Hnil).
  rewrite Hp in Hin. apply with_status_elem in Hin as Hin'. destruct Hin' as [_ Hst].
  assert (Hc : truthy_str user_email && eq_str (get best "status") "backlog" = false).
  { apply andb_false_iff. right. apply not_true_is_false. intros Hx.
    apply eq_str_status in Hx. congruence. }
  rewrite (auto_assign_skip _ _ _ _ Hc), Hrun in H. injection H as -> ->.
  split; [done|]. split.
  - rewrite lookup_insert_ne by done. rewrite serialize_doc_lookup by done. by rewrite Hst.
  - exists best, s. done.
Qed.

Lemma blocked_fallback_untouched_witness :
  with_status "backlog" (mk_world [task_C; task_F]) = []
  /\ next_task (Some "u@x") (mk_world [task_C; task_F])
     = (Ok (Selected (item_of task_C 26)), mk_world [task_C; task_F])
  /\ item_of task_C 26 !! "status" = Some (VStr "blocked").
Proof.
  assert (Hnil : with_status "backlog" (mk_world [task_C; task_F]) = []) by by_eval.
  assert (Hrun : next_task (Some "u@x") (mk_world [task_C; task_F])
                 = (Ok (Selected (item_of task_C 26)), mk_world [task_C; task_F]))
    by by_eval.
  split; [exact Hnil|]. split; [exact Hrun|].
  exact (proj1 (proj2 (blocked_fallback_untouched _ _ _ _ Hnil Hrun))).
Defined.

(** ** Status updates in sequence *)

Lemma update_one_inv (flt asg : list (string * value)) (w w' : world) (n : nat) :
  update_one "task" flt asg w = (Ok n, w') -> n <> 0%nat ->
  exists pre d post,
    collection w "task" = (pre ++ d :: post)%list
    /\ matches flt d = true
    /\ Forall (fun x => matches flt x = false) pre
    /\ w' = {| colls := <["task" := (pre ++ apply_set asg d :: post)%list]> (colls w);
               next_oid := next_oid w;
               journal := (journal w ++ [UpdateOne "task" flt asg 1])%list |}.
Proof.
  unfold update_one. assert (Hs := update_first_spec flt asg (collection w "task")).
  destruct (update_first flt asg (collection w "task")) as [l'|]; intros [= <- <-] Hn; [|done].
  destruct Hs as (pre & d & post & Hl & Hd & Hpre & ->). by exists pre, d, post.
Qed.

Lemma update_task_status_ok (task_id s : string) (w w' : world) :
  update_task_status task_id s w = (Ok true, w') ->
  exists oid pre d post,
    ObjectId_of_str task_id = Some oid
    /\ collection w "task" = (pre ++ d :: post)%list
    /\ d !! "_id" = Some (VOid oid)
    /\ Forall (fun x => x !! "_id" <> Some (VOid oid)) pre
    /\ w' = {| colls := <["task" := (pre ++ <["status" := VStr s]> d :: post)%list]> (colls w);
               next_oid := next_oid w;
               journal := (journal w ++ [UpdateOne "task" [("_id", VOid oid)]
                                           [("status", VStr s)] 1])%list |}.
Proof.
  unfold update_task_status. destruct (ObjectId_of_str task_id) as [oid|]; [|discriminate].
  unfold bind.
  destruct (update_one _ _ _ w) as [[n|e] w1] eqn:Hu; [|discriminate].
  destruct (n =? 0)%nat eqn:Hn; [discriminate|]. intros [= ->].
  apply Nat.eqb_neq in Hn.
  destruct (update_one_inv _ _ _ _ _ Hu Hn) as (pre & d & post & Hl & Hd & Hpre & Hw).
  exists oid, pre, d, post. rewrite matches_id in Hd. apply bool_decide_eq_true in Hd.
  repeat split; try done.
  eapply Forall_impl; [exact Hpre|]. intros x Hx. cbv beta in Hx. rewrite matches_id in Hx.
  by apply bool_decide_eq_false in Hx.
Qed.

Lemma update_task_status_run (task_id s : string) (w : world) (oid : ObjectId)
    (pre post : list doc) (d : doc) :
  ObjectId_of_str task_id = Some oid ->
  collection w "task" = (pre ++ d :: post)%list ->
  d !! "_id" = Some (VOid oid) ->
  Forall (fun x => x !! "_id" <> Some (VOid oid)) pre ->
  update_task_status task_id s w
  = (Ok true,
     {| colls := <["task" := (pre ++ <["status" := VStr s]> d :: post)%list]> (colls w);
        next_oid := next_oid w;
        journal := (journal w ++ [UpdateOne "task" [("_id", VOid oid)]
                                    [("status", VStr s)] 1])%list |}).
Proof.
  intros Ho Hl Hd Hpre. unfold update_task_status. rewrite Ho. unfold bind.
  rewrite (update_one_some _ _ _ w pre post d Hl).
  - reflexivity.
  - by apply not_matches_id.
  - rewrite matches_id. by apply bool_decide_eq_true_2.
Qed.

(** X17: two successful status updates of the same task leave the
    collections as the second one alone would: the last write wins. *)
Theorem update_task_status_last_wins (task_id s1 s2 : string) (w w1 : world) :
  update_task_status task_id s1 w = (Ok true, w1) ->
  exists w2 w2',
    update_task_status task_id s2 w1 = (Ok true, w2)
    /\ update_task_status task_id s2 w = (Ok true, w2')
    /\ colls w2 = colls w2'.
Proof.
  intros H1.
  destruct (update_task_status_ok _ _ _ _ H1) as (oid & pre & d & post & Ho & Hl & Hd & Hpre & ->).
  eexists _, _. split; [|split].
  - apply (update_task_status_run _ _ _ oid pre post (<["status" := VStr s1]> d)); try done.
    + apply collection_insert.
    + by rewrite lookup_insert_ne.
  - by apply (update_task_status_run _ _ _ oid pre post d).
  - simpl. by rewrite !insert_insert_eq.
Qed.

Lemma update_task_status_last_wins_witness :
  exists w2 w2',
    update_task_status "000000000000000000000001" "done"
      (snd (update_task_status "000000000000000000000001" "blocked" (mk_world [task_A; task_B])))
    = (Ok true, w2)
    /\ update_task_status "000000000000000000000001" "done" (mk_world [task_A; task_B])
       = (Ok true, w2')
    /\ colls w2 = colls w2'.
Proof.
  apply (update_task_status_last_wins _ "blocked"). by_eval.
Defined.

Lemma ids_ok_parts (pre post : list doc) (d : doc) (id : value) :
  ids_ok (pre ++ d :: post) -> d !! "_id" = Some id ->
  Forall (fun x => x !! "_id" <> Some id) pre
  /\ Forall (fun x => x !! "_id" <> Some id) post.
Proof.
  intros [_ Hnd] Hid. rewrite map_app in Hnd. simpl in Hnd.
  apply NoDup_app in Hnd as (_ & Hdisj & Hnd).
  apply NoDup_cons in Hnd as [Hpost _].
  split; apply Forall_forall; intros x Hx Heq.
  - apply (Hdisj (x !! "_id")).
    + apply list_elem_of_fmap. eauto.
    + rewrite Heq, <- Hid. left.
  - apply Hpost. rewrite Hid, <- Heq. apply list_elem_of_fmap. eauto.
Qed.

Lemma ids_ok_same_ids (l l' : list doc) :
  map (fun d => d !! "_id") l' = map (fun d => d !! "_id") l -> ids_ok l -> ids_ok l'.
Proof.
  intros Hm [Hs Hn]. split; [|by rewrite Hm].
  apply Forall_forall. intros d Hd.
  assert (Hx : d !! "_id" ∈ map (fun d => d !! "_id") l).
  { rewrite <- Hm. apply list_elem_of_fmap. eauto. }
  apply list_elem_of_fmap in Hx as (d0 & -> & Hd0).
  by apply (proj1 (Forall_forall _ _) Hs).
Qed.

(** X18: with distinct identities, after a successful
    [update_task_status] the task carrying the id has the new status; set
    to backlog it is in the candidate pool of [next_task], set to anything
    but backlog or blocked it is in none. *)
Theorem status_update_and_pool (task_id s : string) (w w' : world) :
  ids_ok (collection w "task") ->
  update_task_status task_id s w = (Ok true, w') ->
  exists oid d,
    ObjectId_of_str task_id = Some oid
    /\ d ∈ collection w' "task"
    /\ d !! "_id" = Some (VOid oid)
    /\ d !! "status" = Some (VStr s)
    /\ (s = "backlog" -> d ∈ pool_of w')
    /\ (s <> "backlog" -> s <> "blocked" ->
        forall t, t ∈ pool_of w' -> t !! "_id" <> Some (VOid oid))
    /\ ids_ok (collection w' "task").
Proof.
  intros Hids Hrun.
  destruct (update_task_status_ok _ _ _ _ Hrun) as (oid & pre & d & post & Ho & Hl & Hd & _ & ->).
  rewrite Hl in Hids. destruct (ids_ok_parts _ _ _ _ Hids Hd) as [Hpre Hpost].
  exists oid, (<["status" := VStr s]> d). rewrite collection_insert.
  assert (Hd' : <["status" := VStr s]> d !! "_id" = Some (VOid oid))
    by (by rewrite lookup_insert_ne).
  assert (Hs' : <["status" := VStr s]> d !! "status" = Some (VStr s))
    by apply lookup_insert_eq.
  assert (Hin : <["status" := VStr s]> d ∈ (pre ++ <["status" := VStr s]> d :: post)%list)
    by set_solver.
  split; [done|]. split; [done|]. split; [done|]. split; [done|].
  split; [|split].
  - intros ->. unfold pool_of.
    assert (Hb : <["status" := VStr "backlog"]> d
                 ∈ with_status "backlog"
                     {| colls := <["task" := (pre ++ <["status" := VStr "backlog"]> d
                                                   :: post)%list]> (colls w);
                        next_oid := next_oid w;
                        journal := (journal w ++ [UpdateOne "task" [("_id", VOid oid)]
                                                    [("status", VStr "backlog")] 1])%list |}).
    { apply with_status_elem. by rewrite collection_insert. }
    destruct (with_status "backlog" _) as [|x l]; [by apply not_elem_of_nil in Hb | done].
  - intros H1 H2 t Ht. apply pool_of_status in Ht as [Ht Hst].
    rewrite collection_insert in Ht.
    apply elem_of_app in Ht as [Ht | Ht]; [by apply (proj1 (Forall_forall _ _) Hpre)|].
    apply elem_of_cons in Ht as [-> | Ht]; [|by apply (proj1 (Forall_forall _ _) Hpost)].
    rewrite Hs' in Hst. destruct Hst as [[= ->] | [_ [= ->]]]; done.
  - eapply ids_ok_same_ids; [|exact Hids].
    rewrite !map_app. simpl. by rewrite lookup_insert_ne.
Qed.

Lemma status_update_and_pool_witness :
  ids_ok (collection (mk_world [task_A; task_B]) "task")
  /\ update_task_status "000000000000000000000001" "done" (mk_world [task_A; task_B])
     = (Ok true,
        {| colls := {[ "task" := [<["status" := VStr "done"]> task_A; task_B] ]};
           next_oid := 100;
           journal := [UpdateOne "task" [("_id", VOid (gen_oid 1))]
                         [("status", VStr "done")] 1] |})
  /\ exists (oid : ObjectId) (d : doc),
       ObjectId_of_str "000000000000000000000001" = Some oid
       /\ d !! "_id" = Some (VOid oid)
       /\ d !! "status" = Some (VStr "done")
       /\ forall t : doc,
            t ∈ pool_of
                  {| colls := {[ "task" := [<["status" := VStr "done"]> task_A; task_B] ]};
                     next_oid := 100;
                     journal := [UpdateOne "task" [("_id", VOid (gen_oid 1))]
                                   [("status", VStr "done")] 1] |} ->
            t !! "_id" <> Some (VOid oid).
Proof.
  assert (Hrun : update_task_status "000000000000000000000001" "done"
                   (mk_world [task_A; task_B])
     = (Ok true,
        {| colls := {[ "task" := [<["status" := VStr "done"]> task_A; task_B] ]};
           next_oid := 100;
           journal := [UpdateOne "task" [("_id", VOid (gen_oid 1))]
                         [("status", VStr "done")] 1] |})) by by_eval.
  split; [exact sample_AB_ids_ok|]. split; [exact Hrun|].
  destruct (status_update_and_pool _ _ _ _ sample_AB_ids_ok Hrun)
    as (oid & d & Ho & _ & Hd & Hs & _ & Hout & _).
  exists oid, d. split; [exact Ho|]. split; [exact Hd|]. split; [exact Hs|].
  apply Hout; discriminate.
Defined.

(** ** Identities handed out and taken back *)

Lemma hex_char_ok (m : N) : is_hex (hex_char m) = true /\ lower (hex_char m) = hex_char m.
Proof.
  unfold hex_char. generalize (N.to_nat m). intros n.
  do 16 (destruct n as [|n]; [split; reflexivity|]). split; reflexivity.
Qed.

Lemma hex_go_ok (k : nat) (n : N) (acc : string) :
  all_chars is_hex acc = true -> map_chars lower acc = acc ->
  String.length (hex_go k n acc) = (k + String.length acc)%nat
  /\ all_chars is_hex (hex_go k n acc) = true
  /\ map_chars lower (hex_go k n acc) = hex_go k n acc.
Proof.
  revert n acc. induction k as [|k IH]; intros n acc Hh Hl; simpl; [done|].
  destruct (hex_char_ok (n mod 16)%N) as [H1 H2].
  destruct (IH (n / 16)%N (String (hex_char (n mod 16)%N) acc)) as (IL & IHh & IHl).
  - simpl. by rewrite H1, Hh.
  - simpl. by rewrite H2, Hl.
  - split; [|done]. rewrite IL. simpl. lia.
Qed.

Lemma is_hex_not_ws (c : ascii) : is_hex c = true -> is_ws c = false.
Proof. destruct c as [[] [] [] [] [] [] [] []]; vm_compute; congruence. Qed.

(** Text made of an even number of lower-case hexadecimal digits is read
    by [fromhex] as it stands. *)
Lemma fromhex_digits (k : nat) (s : string) :
  String.length s = (2 * k)%nat -> all_chars is_hex s = true -> map_chars lower s = s ->
  fromhex s = Some s.
Proof.
  revert s. induction k as [|k IH]; intros s Hlen Hh Hl.
  - by destruct s.
  - destruct s as [|c [|d s]]; simpl in Hlen; try lia.
    simpl in Hh, Hl. apply andb_true_iff in Hh as [Hc Hh].
    apply andb_true_iff in Hh as [Hd Hh]. injection Hl as Hlc Hld Hl.
    cbn [fromhex]. rewrite (is_hex_not_ws _ Hc), Hc, Hd, (IH s); [|lia|done|done].
    simpl. by rewrite Hlc, Hld.
Qed.

(** The text of a generated identity parses back to that identity. *)
Lemma gen_oid_parses (n : N) : ObjectId_of_str (py_str (VOid (gen_oid n))) = Some (gen_oid n).
Proof.
  change (py_str (VOid (gen_oid n))) with (hex_go 24 n "").
  destruct (hex_go_ok 24 n "" eq_refl eq_refl) as (Hl & Hh & Hw).
  unfold ObjectId_of_str, gen_oid. rewrite Hl. simpl Nat.eqb. cbv iota.
  by rewrite (fromhex_digits 12).
Qed.

(** X20: the id [create_task] answers with is accepted by
    [update_task_status] and addresses the task just created, provided no
    stored task already carries the generated identity. *)
Theorem created_id_accepted (p : Task) (s : string) (w : world) :
  Forall (fun d => d !! "_id" <> Some (VOid (gen_oid (next_oid w)))) (collection w "task") ->
  exists id w1 w2,
    create_task p w = (Ok id, w1)
    /\ update_task_status id s w1 = (Ok true, w2)
    /\ collection w2 "task"
       = (collection w "task"
          ++ [<["status" := VStr s]> (stored (next_oid w) (task_dump p))])%list.
Proof.
  intros Hfresh. eexists _, _, _. rewrite create_task_run. split; [reflexivity|].
  split.
  - apply (update_task_status_run _ _ _ (gen_oid (next_oid w)) (collection w "task") []
             (stored (next_oid w) (task_dump p))).
    + apply gen_oid_parses.
    + apply collection_insert.
    + apply lookup_insert_eq.
    + exact Hfresh.
  - apply collection_insert.
Qed.

Lemma created_id_accepted_witness :
  exists id w1 w2,
    create_task sample_task (mk_world [task_A]) = (Ok id, w1)
    /\ update_task_status id "done" w1 = (Ok true, w2)
    /\ collection w2 "task"
       = [task_A; <["status" := VStr "done"]> (stored 100 (task_dump sample_task))].
Proof.
  apply (created_id_accepted sample_task "done" (mk_world [task_A])).
  apply (bool_decide_unpack _). vm_compute. exact I.
Defined.

(** X21: a validated task created with status backlog while the backlog
    is empty, under an identity no stored task carries, is the task the
    next [next_task] returns, with its score attached.  With a caller the
    store then holds the tasks it had followed by the new task with status
    in_progress and the caller as assignee; without one the store is as
    [create_task] left it. *)
Theorem created_backlog_task_is_next (p : Task) (user_email : option string) (w : world) :
  Task_valid p = true -> status p = "backlog" -> with_status "backlog" w = [] ->
  Forall (fun d => d !! "_id" <> Some (VOid (gen_oid (next_oid w)))) (collection w "task") ->
  exists id w1 w2,
    create_task p w = (Ok id, w1)
    /\ next_task user_email w1
       = (Ok (Selected (returned user_email (stored (next_oid w) (task_dump p))
                          (impact p * 2 + urgency p - effort p))), w2)
    /\ (caller_given user_email = true ->
        collection w2 "task"
        = (collection w "task"
           ++ [claimed user_email (stored (next_oid w) (task_dump p))])%list
        /\ claimed user_email (stored (next_oid w) (task_dump p)) !! "status"
           = Some (VStr "in_progress")
        /\ claimed user_email (stored (next_oid w) (task_dump p)) !! "assignee"
           = Some (opt_str user_email)
        /\ (forall k, k <> "status" -> k <> "assignee" ->
            claimed user_email (stored (next_oid w) (task_dump p)) !! k
            = stored (next_oid w) (task_dump p) !! k))
    /\ (caller_given user_email = false -> w2 = w1).
Proof.
  intros Hv Hst Hnil Hfresh. eexists _, _. rewrite create_task_run.
  set (t := stored (next_oid w) (task_dump p)). set (w1 := {| colls := _ |}).
  destruct (task_dump_lookups p) as (Hi & He & Hu & Hs & _).
  assert (Hsc : score_task t = Ok (impact p * 2 + urgency p - effort p)).
  { unfold score_task, get_or, t. rewrite !stored_lookup by done. by rewrite Hi, He, Hu. }
  assert (Hts : t !! "status" = Some (VStr "backlog")).
  { unfold t. rewrite stored_lookup by done. by rewrite Hs, Hst. }
  assert (Hbk : with_status "backlog" w1 = [t]).
  { unfold with_status, w1. rewrite collection_insert, List.filter_app.
    unfold with_status in Hnil. rewrite Hnil. cbn [List.filter app].
    assert (Hm : matches [("status", VStr "backlog")] t = true) by (by apply matches_status).
    by rewrite Hm. }
  assert (Hp : pool_of w1 = [t]) by (unfold pool_of; by rewrite Hbk).
  destruct (score_pref_score user_email t _ Hsc) as [q Hq].
  assert (Hsel : select_best user_email (pool_of w1) = Ok t).
  { rewrite Hp. unfold select_best, sorted_desc. simpl. by rewrite Hq. }
  assert (Hbl : eq_str (get t "status") "backlog" = true) by (by apply eq_str_status).
  destruct (next_task_cases user_email w1)
    as [[Hc _] | [(_ & e & He' & _) | (best & s & Hb & Hs' & _ & H)]].
  { rewrite Hp in Hc. discriminate. }
  { rewrite Hsel in He'. discriminate. }
  rewrite Hsel in Hb. injection Hb as <-. rewrite Hsc in Hs'. injection Hs' as <-.
  unfold returned. rewrite Hbl, andb_true_r.
  destruct (caller_given user_email) eqn:Hcg.
  - rewrite (auto_assign_claim _ _ _ (VOid (gen_oid (next_oid w))) (collection w "task") [] w1)
      in H.
    + eexists. split; [reflexivity|]. split; [exact H|]. split; [|done].
      intros _. split; [apply collection_insert|]. unfold claimed.
      split; [by simplify_map_eq|]. split; [by simplify_map_eq|].
      intros k Hk1 Hk2. by rewrite !lookup_insert_ne.
    + by rewrite caller_given_truthy, Hcg, Hbl.
    + apply lookup_insert_eq.
    + apply collection_insert.
    + exact Hfresh.
  - rewrite auto_assign_skip in H by (by rewrite caller_given_truthy, Hcg).
    eexists. split; [reflexivity|]. split; [exact H|]. done.
Qed.

Lemma created_backlog_task_is_next_witness :
  exists id w1 w2,
    create_task sample_task (mk_world [task_C]) = (Ok id, w1)
    /\ next_task (Some "u@x") w1
       = (Ok (Selected (returned (Some "u@x") (stored 100 (task_dump sample_task))
                          (8 * 2 + 9 - 2))), w2)
    /\ collection w2 "task"
       = [task_C; claimed (Some "u@x") (stored 100 (task_dump sample_task))].
Proof.
  destruct (created_backlog_task_is_next sample_task (Some "u@x") (mk_world [task_C]))
    as (id & w1 & w2 & Hc & Hn & Hw & _).
  - by_eval.
  - reflexivity.
  - by_eval.
  - apply (bool_decide_unpack _). vm_compute. exact I.
  - exists id, w1, w2. split; [exact Hc|]. split; [exact Hn|]. exact (proj1 (Hw eq_refl)).
Defined.

